(** * EjercicioPractico3: a background line counter and its interactive controller

    The program (src/EjercicioPractico3.py) runs two threads.  The secondary
    thread, [contar_errores_en_fichero], reads a text file, counts the lines
    that contain a keyword and publishes the tally in the global
    [contador_errores]; the main thread, [main], generates that file, starts
    the secondary thread and serves a menu until the user leaves.

    The development has three layers:
    - the text layer: Python's [in] on strings, [readlines], the f-string of
      the generated log lines;
    - the machine: the two threads as control points over the three globals
      of lines 14-21.  A step of the machine is a step of one thread and
      touches a shared variable at most once, which is the grain at which the
      interpreter switches threads; the steps of the two threads interleave in
      any order;
    - the invariants of the machine and the properties that follow.

    Python [str] values are modelled as [string] holding the UTF-8 bytes of the
    text.  Substring search on UTF-8 bytes agrees with substring search on
    code points, so [in] is modelled byte-wise.

    What can fail in the model: [open] for writing and for reading (a file
    that cannot be decoded counts as one that cannot be read) and [input] at
    the end of the input.  Printing, sleeping and the clock do not fail, and
    the prompts of [input] are not recorded. *)

From Stdlib Require Import String Ascii List Arith Lia Bool DecimalString.
Import ListNotations.
Open Scope string_scope.
Open Scope nat_scope.

(* ------------------------------------------------------------------------- *)
(** ** Text layer *)
(* ------------------------------------------------------------------------- *)

Module Texto.

Definition LF : ascii := "010"%char.
Definition CR : ascii := "013"%char.

(** [k in l] of Python, for strings (line 93): [k] occurs in [l] at some
    offset; the empty string occurs in every string. *)
Fixpoint contiene (k l : string) : bool :=
  String.prefix k l ||
  match l with
  | EmptyString => false
  | String _ l' => contiene k l'
  end.

(** The same notion, stated independently of any search order. *)
Definition Subcadena (k l : string) : Prop :=
  exists antes despues, l = antes ++ k ++ despues.

(** Text-mode reading with [newline=None] (the default of [open], line 81):
    the sequences CR LF and the lone CR are delivered as LF. *)
Fixpoint saltos_universales (s : string) : string :=
  match s with
  | EmptyString => EmptyString
  | String c s' =>
      if Ascii.eqb c CR then
        match s' with
        | String c' s'' =>
            if Ascii.eqb c' LF then String LF (saltos_universales s'')
            else String LF (saltos_universales s')
        | EmptyString => String LF EmptyString
        end
      else String c (saltos_universales s')
  end.

(** Cutting a text after every LF; [actual] is the line being collected.  A
    last line without LF is kept, an empty remainder is not a line. *)
Fixpoint cortar (actual s : string) : list string :=
  match s with
  | EmptyString =>
      match actual with
      | EmptyString => []
      | _ => [actual]
      end
  | String c s' =>
      if Ascii.eqb c LF then (actual ++ String LF EmptyString) :: cortar EmptyString s'
      else cortar (actual ++ String c EmptyString) s'
  end.

(** [f.readlines()] (line 83) on the text of a file: every line keeps its
    terminator. *)
Definition readlines (texto : string) : list string :=
  cortar EmptyString (saltos_universales texto).

(** [str(n)] for a non-negative integer, as the f-string of line 54 renders
    [i+1]. *)
Definition decimal (n : nat) : string :=
  NilEmpty.string_of_uint (Nat.to_uint n).

(** A string without line terminators. *)
Fixpoint sin_saltos (s : string) : bool :=
  match s with
  | EmptyString => true
  | String c s' => negb (Ascii.eqb c LF) && negb (Ascii.eqb c CR) && sin_saltos s'
  end.

(** A line as [readlines] returns it when the file ends in a terminator: some
    text without terminators followed by one LF. *)
Definition linea_terminada (l : string) : Prop :=
  exists cuerpo, sin_saltos cuerpo = true /\ l = cuerpo ++ String LF EmptyString.

End Texto.
Import Texto.

(* ------------------------------------------------------------------------- *)
(** ** The machine *)
(* ------------------------------------------------------------------------- *)

(** The arguments [main] passes on (lines 202-204). *)
Record Config := {
  nombre_archivo : string;
  palabra_clave : string;
  num_lineas : nat
}.

Definition config_main : Config :=
  {| nombre_archivo := "log_grande.txt";
     palabra_clave := "ERROR";
     num_lineas := 5000 |}.

(** What the program takes from the interpreter and the operating system and
    does not define itself. *)
Record Entorno := {
  strip : string -> string;          (* [str.strip], line 233 *)
  es_float : string -> bool;         (* does [float(x)] accept the text, 178-179 *)
  aleatorio : nat -> nat;            (* the k-th draw of the [random] module *)
  puede_escribir : string -> bool    (* does [open(path, 'w')] succeed, line 51 *)
}.

Inductive hilo_id := Principal | Secundario.

(** How a [try] block ended, as seen by its [finally]. *)
Inductive resultado := Normal | Excepcion.

(** Why the main thread stopped with an uncaught exception. *)
Inductive motivo :=
| Error_escritura      (* [open(..., 'w')] failed inside generar_fichero_grande *)
| Fin_de_entrada       (* [input()] found the end of the input: EOFError *)
| Error_en_seccion.    (* an exception left a block that held the semaphore *)

(** Control points of the secondary thread, lines 62-122. *)
Inductive pc_hilo_t :=
| H_no_lanzado                                   (* 217: created, not started *)
| H_inicio                                       (* 74-77 *)
| H_abrir                                        (* 79-84 *)
| H_bucle (pendientes : list string) (i total contador_local : nat)  (* 87-98 *)
| H_acquire (contador_local : nat)               (* 104 *)
| H_escribir (contador_local : nat)              (* 107 *)
| H_release (r : resultado) (contador_local : nat)  (* 108-111 *)
| H_aviso (contador_local : nat)                 (* 114 *)
| H_except                                       (* 116-118 *)
| H_finally                                      (* 120-122 *)
| H_muerto.                                      (* the thread has ended *)

(** Control points of the main thread, lines 188-274 with the functions it
    calls. *)
Inductive pc_main_t :=
| M_generar                          (* 196-209 *)
| M_lanzar                           (* 217-224 *)
| M_menu                             (* 232-253: menu, input, dispatch *)
| M_hora                             (* 237, 140-145 *)
| M_mensaje                          (* 239, 147-156 *)
| M_estado_acquire                   (* 241, 164 *)
| M_estado_leer_terminado            (* 167 *)
| M_estado_leer_contador (terminado : bool)   (* 168 / 170 *)
| M_estado_release (r : resultado)   (* 171-173 *)
| M_suma_1                           (* 243, 178 *)
| M_suma_2 (num1 : string)           (* 179-183 *)
| M_salir                            (* 245-249 *)
| M_join                             (* 251 *)
| M_no_valida                        (* 254 *)
| M_pausa                            (* 257 *)
| M_cabecera_final                   (* 262-264 *)
| M_final_acquire                    (* 267 *)
| M_final_leer                       (* 269 *)
| M_final_release (r : resultado)    (* 270-271 *)
| M_despedida                        (* 273-274 *)
| M_fin                              (* main returned *)
| M_abortado (m : motivo).           (* main left by an exception *)

(** What the threads print.  The wording of the texts is not modelled, the
    values they carry are. *)
Inductive mensaje :=
| Msg_titulo                                        (* 196-197 *)
| Msg_generando (n : nat)                           (* 34 *)
| Msg_generado (nombre : string)                    (* 57 *)
| Msg_hilo_iniciado (palabra : string)              (* 74 *)
| Msg_progreso (i total : nat)                      (* 98 *)
| Msg_hilo_terminado (n : nat) (palabra : string)   (* 114 *)
| Msg_error_hilo                                    (* 118 *)
| Msg_menu                                          (* 130-138 *)
| Msg_hora                                          (* 144-145 *)
| Msg_motivacional (k : nat)                        (* 156 *)
| Msg_conteo_finalizado (n : nat)                   (* 168 *)
| Msg_procesando (n : nat)                          (* 170 *)
| Msg_suma (num1 num2 : string)                     (* 181 *)
| Msg_suma_error                                    (* 183 *)
| Msg_saliendo                                      (* 245 *)
| Msg_esperando                                     (* 249 *)
| Msg_no_valida                                     (* 254 *)
| Msg_cabecera_final                                (* 262-264 *)
| Msg_resultado_final (palabra : string) (n : nat)  (* 269 *)
| Msg_despedida.                                    (* 273-274 *)

(** The history of the accesses to the two shared variables: which thread,
    which variable, read or write, and whether the thread held a permit of the
    semaphore at that moment. *)
Inductive variable := V_contador | V_terminado.
Inductive modo := Lectura | Escritura.

Record acceso := {
  a_hilo : hilo_id;
  a_var : variable;
  a_modo : modo;
  a_con_semaforo : bool
}.

(** The state of the program.  [contador_errores], [semaforo] (the value of
    the [threading.Semaphore]) and [hilo_terminado] are the globals of lines
    14-21.  [permisos_principal], [permisos_hilo] and [traza] are history
    variables: the number of permits each thread has acquired and not yet
    released, and the accesses made so far, most recent first.  [salida] is
    the console, most recent first. *)
Record estado := {
  contador_errores : nat;
  semaforo : nat;
  hilo_terminado : bool;
  pc_main : pc_main_t;
  pc_hilo : pc_hilo_t;
  ficheros : string -> option string;
  entrada : list string;
  salida : list mensaje;
  sorteos : nat;
  permisos_principal : nat;
  permisos_hilo : nat;
  traza : list acceso
}.

Module Campos.

Definition con_contador (n : nat) (s : estado) : estado :=
  {| contador_errores := n; semaforo := semaforo s;
     hilo_terminado := hilo_terminado s; pc_main := pc_main s;
     pc_hilo := pc_hilo s; ficheros := ficheros s; entrada := entrada s;
     salida := salida s; sorteos := sorteos s;
     permisos_principal := permisos_principal s;
     permisos_hilo := permisos_hilo s; traza := traza s |}.

Definition con_semaforo (n : nat) (s : estado) : estado :=
  {| contador_errores := contador_errores s; semaforo := n;
     hilo_terminado := hilo_terminado s; pc_main := pc_main s;
     pc_hilo := pc_hilo s; ficheros := ficheros s; entrada := entrada s;
     salida := salida s; sorteos := sorteos s;
     permisos_principal := permisos_principal s;
     permisos_hilo := permisos_hilo s; traza := traza s |}.

Definition con_terminado (b : bool) (s : estado) : estado :=
  {| contador_errores := contador_errores s; semaforo := semaforo s;
     hilo_terminado := b; pc_main := pc_main s;
     pc_hilo := pc_hilo s; ficheros := ficheros s; entrada := entrada s;
     salida := salida s; sorteos := sorteos s;
     permisos_principal := permisos_principal s;
     permisos_hilo := permisos_hilo s; traza := traza s |}.

Definition ir_main (pc : pc_main_t) (s : estado) : estado :=
  {| contador_errores := contador_errores s; semaforo := semaforo s;
     hilo_terminado := hilo_terminado s; pc_main := pc;
     pc_hilo := pc_hilo s; ficheros := ficheros s; entrada := entrada s;
     salida := salida s; sorteos := sorteos s;
     permisos_principal := permisos_principal s;
     permisos_hilo := permisos_hilo s; traza := traza s |}.

Definition ir_hilo (pc : pc_hilo_t) (s : estado) : estado :=
  {| contador_errores := contador_errores s; semaforo := semaforo s;
     hilo_terminado := hilo_terminado s; pc_main := pc_main s;
     pc_hilo := pc; ficheros := ficheros s; entrada := entrada s;
     salida := salida s; sorteos := sorteos s;
     permisos_principal := permisos_principal s;
     permisos_hilo := permisos_hilo s; traza := traza s |}.

Definition con_ficheros (f : string -> option string) (s : estado) : estado :=
  {| contador_errores := contador_errores s; semaforo := semaforo s;
     hilo_terminado := hilo_terminado s; pc_main := pc_main s;
     pc_hilo := pc_hilo s; ficheros := f; entrada := entrada s;
     salida := salida s; sorteos := sorteos s;
     permisos_principal := permisos_principal s;
     permisos_hilo := permisos_hilo s; traza := traza s |}.

Definition con_entrada (e : list string) (s : estado) : estado :=
  {| contador_errores := contador_errores s; semaforo := semaforo s;
     hilo_terminado := hilo_terminado s; pc_main := pc_main s;
     pc_hilo := pc_hilo s; ficheros := ficheros s; entrada := e;
     salida := salida s; sorteos := sorteos s;
     permisos_principal := permisos_principal s;
     permisos_hilo := permisos_hilo s; traza := traza s |}.

Definition con_salida (o : list mensaje) (s : estado) : estado :=
  {| contador_errores := contador_errores s; semaforo := semaforo s;
     hilo_terminado := hilo_terminado s; pc_main := pc_main s;
     pc_hilo := pc_hilo s; ficheros := ficheros s; entrada := entrada s;
     salida := o; sorteos := sorteos s;
     permisos_principal := permisos_principal s;
     permisos_hilo := permisos_hilo s; traza := traza s |}.

Definition con_sorteos (k : nat) (s : estado) : estado :=
  {| contador_errores := contador_errores s; semaforo := semaforo s;
     hilo_terminado := hilo_terminado s; pc_main := pc_main s;
     pc_hilo := pc_hilo s; ficheros := ficheros s; entrada := entrada s;
     salida := salida s; sorteos := k;
     permisos_principal := permisos_principal s;
     permisos_hilo := permisos_hilo s; traza := traza s |}.

Definition con_permisos (h : hilo_id) (n : nat) (s : estado) : estado :=
  {| contador_errores := contador_errores s; semaforo := semaforo s;
     hilo_terminado := hilo_terminado s; pc_main := pc_main s;
     pc_hilo := pc_hilo s; ficheros := ficheros s; entrada := entrada s;
     salida := salida s; sorteos := sorteos s;
     permisos_principal :=
       match h with Principal => n | Secundario => permisos_principal s end;
     permisos_hilo :=
       match h with Principal => permisos_hilo s | Secundario => n end;
     traza := traza s |}.

Definition con_traza (t : list acceso) (s : estado) : estado :=
  {| contador_errores := contador_errores s; semaforo := semaforo s;
     hilo_terminado := hilo_terminado s; pc_main := pc_main s;
     pc_hilo := pc_hilo s; ficheros := ficheros s; entrada := entrada s;
     salida := salida s; sorteos := sorteos s;
     permisos_principal := permisos_principal s;
     permisos_hilo := permisos_hilo s; traza := t |}.

End Campos.
Import Campos.

(** *** Primitive operations *)

Definition permisos (h : hilo_id) (s : estado) : nat :=
  match h with
  | Principal => permisos_principal s
  | Secundario => permisos_hilo s
  end.

Definition tiene_semaforo (h : hilo_id) (s : estado) : bool :=
  0 <? permisos h s.

Definition anotar (h : hilo_id) (v : variable) (m : modo) (s : estado) : estado :=
  con_traza ({| a_hilo := h; a_var := v; a_modo := m;
                a_con_semaforo := tiene_semaforo h s |} :: traza s) s.

(** The only four ways the threads touch the shared variables. *)
Definition leer_contador (h : hilo_id) (s : estado) : nat * estado :=
  (contador_errores s, anotar h V_contador Lectura s).

Definition escribir_contador (h : hilo_id) (n : nat) (s : estado) : estado :=
  con_contador n (anotar h V_contador Escritura s).

Definition leer_terminado (h : hilo_id) (s : estado) : bool * estado :=
  (hilo_terminado s, anotar h V_terminado Lectura s).

Definition escribir_terminado (h : hilo_id) (b : bool) (s : estado) : estado :=
  con_terminado b (anotar h V_terminado Escritura s).

(** [semaforo.acquire()]: blocks (no step) while the value is 0, otherwise
    takes one permit. *)
Definition acquire (h : hilo_id) (s : estado) : option estado :=
  match semaforo s with
  | 0 => None
  | S n => Some (con_permisos h (permisos h s + 1) (con_semaforo n s))
  end.

(** [semaforo.release()]: gives one permit back; never blocks. *)
Definition release (h : hilo_id) (s : estado) : estado :=
  con_permisos h (permisos h s - 1) (con_semaforo (semaforo s + 1) s).

Definition print (m : mensaje) (s : estado) : estado :=
  con_salida (m :: salida s) s.

(** [input()]: the next line typed, or nothing at the end of the input. *)
Definition input (s : estado) : option (string * estado) :=
  match entrada s with
  | [] => None
  | l :: resto => Some (l, con_entrada resto s)
  end.

Definition escribir_fichero (nombre texto : string)
    (fs : string -> option string) : string -> option string :=
  fun p => if String.eqb p nombre then Some texto else fs p.

(** *** generar_fichero_grande, lines 26-57 *)

Definition mensajes_posibles : list string :=
  [ "INFO: Sistema iniciado correctamente";
    "ERROR: No se pudo conectar a la base de datos";
    "WARNING: Memoria baja disponible";
    "ERROR: Timeout en la petición";
    "INFO: Usuario autenticado";
    "DEBUG: Procesando solicitud";
    "ERROR: Archivo no encontrado";
    "INFO: Operación completada con éxito";
    "WARNING: Certificado SSL próximo a expirar";
    "ERROR: Permiso denegado" ].

(** [random.choice(xs)] at the k-th draw. *)
Definition choice (E : Entorno) (k : nat) (xs : list string) : string :=
  nth (aleatorio E k mod length xs) xs EmptyString.

(** The line written at iteration [i] (line 54), [k0] draws having been made
    before the loop. *)
Definition linea_generada (E : Entorno) (k0 i : nat) : string :=
  "[" ++ decimal (i + 1) ++ "] " ++ choice E (k0 + i) mensajes_posibles
      ++ String LF EmptyString.

(** Successive [f.write] calls. *)
Fixpoint escribir_todo (ls : list string) : string :=
  match ls with
  | [] => EmptyString
  | l :: resto => l ++ escribir_todo resto
  end.

Definition texto_generado (E : Entorno) (k0 n : nat) : string :=
  escribir_todo (map (linea_generada E k0) (seq 0 n)).

Definition generar_fichero_grande (E : Entorno) (nombre : string) (n : nat)
    (s : estado) : resultado * estado :=
  let s1 := print (Msg_generando n) s in
  if puede_escribir E nombre then
    let s2 := con_ficheros
                (escribir_fichero nombre (texto_generado E (sorteos s1) n)
                   (ficheros s1)) s1 in
    let s3 := con_sorteos (sorteos s2 + n) s2 in
    (Normal, print (Msg_generado nombre) s3)
  else (Excepcion, s1).

(** The test of line 97, for the line of index [i]. *)
Definition toca_progreso (i : nat) : bool :=
  (i + 1) mod 1000 =? 0.

(** *** contar_errores_en_fichero, lines 62-122: one step of the secondary
    thread at its control point; [None] when it cannot move (not started,
    waiting for the semaphore, ended). *)
Definition contar_errores_en_fichero (nombre palabra : string) (s : estado)
    : option estado :=
  match pc_hilo s with
  | H_no_lanzado => None
  | H_inicio =>
      Some (ir_hilo H_abrir (print (Msg_hilo_iniciado palabra) s))
  | H_abrir =>
      match ficheros s nombre with
      | Some texto =>
          let lineas := readlines texto in
          Some (ir_hilo (H_bucle lineas 0 (length lineas) 0) s)
      | None => Some (ir_hilo H_except s)
      end
  | H_bucle pendientes i total contador_local =>
      match pendientes with
      | [] => Some (ir_hilo (H_acquire contador_local) s)
      | linea :: resto =>
          let contador_local' :=
            if contiene palabra linea then contador_local + 1
            else contador_local in
          let s1 :=
            if toca_progreso i then print (Msg_progreso (i + 1) total) s
            else s in
          Some (ir_hilo (H_bucle resto (i + 1) total contador_local') s1)
      end
  | H_acquire contador_local =>
      option_map (ir_hilo (H_escribir contador_local)) (acquire Secundario s)
  | H_escribir contador_local =>
      Some (ir_hilo (H_release Normal contador_local)
              (escribir_contador Secundario contador_local s))
  | H_release r contador_local =>
      let s1 := release Secundario s in
      match r with
      | Normal => Some (ir_hilo (H_aviso contador_local) s1)
      | Excepcion => Some (ir_hilo H_except s1)
      end
  | H_aviso contador_local =>
      Some (ir_hilo H_finally (print (Msg_hilo_terminado contador_local palabra) s))
  | H_except =>
      Some (ir_hilo H_finally (print Msg_error_hilo s))
  | H_finally =>
      Some (ir_hilo H_muerto (escribir_terminado Secundario true s))
  | H_muerto => None
  end.

(** *** main, lines 188-274 *)

(** The chain of comparisons of lines 236-254. *)
Definition despachar (opcion : string) : pc_main_t :=
  if String.eqb opcion "1" then M_hora
  else if String.eqb opcion "2" then M_mensaje
  else if String.eqb opcion "3" then M_estado_acquire
  else if String.eqb opcion "4" then M_suma_1
  else if String.eqb opcion "5" then M_salir
  else M_no_valida.

(** [hilo.join()] returns once the thread has ended. *)
Definition hilo_acabado (pc : pc_hilo_t) : bool :=
  match pc with
  | H_muerto => true
  | _ => false
  end.

(** One step of the main thread at its control point; [None] when it cannot
    move (waiting for the semaphore or in [join], or ended). *)
Definition main (E : Entorno) (cfg : Config) (s : estado) : option estado :=
  match pc_main s with
  | M_generar =>
      match generar_fichero_grande E (nombre_archivo cfg) (num_lineas cfg)
              (print Msg_titulo s) with
      | (Normal, s1) => Some (ir_main M_lanzar s1)
      | (Excepcion, s1) => Some (ir_main (M_abortado Error_escritura) s1)
      end
  | M_lanzar => Some (ir_main M_menu (ir_hilo H_inicio s))
  | M_menu =>
      let s1 := print Msg_menu s in
      match input s1 with
      | Some (l, s2) => Some (ir_main (despachar (strip E l)) s2)
      | None => Some (ir_main (M_abortado Fin_de_entrada) s1)
      end
  | M_hora => Some (ir_main M_pausa (print Msg_hora s))
  | M_mensaje =>
      Some (ir_main M_pausa
              (print (Msg_motivacional (aleatorio E (sorteos s) mod 5))
                 (con_sorteos (sorteos s + 1) s)))
  | M_estado_acquire =>
      option_map (ir_main M_estado_leer_terminado) (acquire Principal s)
  | M_estado_leer_terminado =>
      let (t, s1) := leer_terminado Principal s in
      Some (ir_main (M_estado_leer_contador t) s1)
  | M_estado_leer_contador t =>
      let (n, s1) := leer_contador Principal s in
      let m := if t then Msg_conteo_finalizado n else Msg_procesando n in
      Some (ir_main (M_estado_release Normal) (print m s1))
  | M_estado_release r =>
      let s1 := release Principal s in
      match r with
      | Normal => Some (ir_main M_pausa s1)
      | Excepcion => Some (ir_main (M_abortado Error_en_seccion) s1)
      end
  | M_suma_1 =>
      match input s with
      | Some (l, s1) =>
          if es_float E l then Some (ir_main (M_suma_2 l) s1)
          else Some (ir_main M_pausa (print Msg_suma_error s1))
      | None => Some (ir_main (M_abortado Fin_de_entrada) s)
      end
  | M_suma_2 num1 =>
      match input s with
      | Some (l, s1) =>
          if es_float E l then Some (ir_main M_pausa (print (Msg_suma num1 l) s1))
          else Some (ir_main M_pausa (print Msg_suma_error s1))
      | None => Some (ir_main (M_abortado Fin_de_entrada) s)
      end
  | M_salir =>
      let (t, s1) := leer_terminado Principal (print Msg_saliendo s) in
      if t then Some (ir_main M_cabecera_final s1)
      else Some (ir_main M_join (print Msg_esperando s1))
  | M_join =>
      if hilo_acabado (pc_hilo s) then Some (ir_main M_cabecera_final s)
      else None
  | M_no_valida => Some (ir_main M_pausa (print Msg_no_valida s))
  | M_pausa => Some (ir_main M_menu s)
  | M_cabecera_final => Some (ir_main M_final_acquire (print Msg_cabecera_final s))
  | M_final_acquire =>
      option_map (ir_main M_final_leer) (acquire Principal s)
  | M_final_leer =>
      let (n, s1) := leer_contador Principal s in
      Some (ir_main (M_final_release Normal)
              (print (Msg_resultado_final (palabra_clave cfg) n) s1))
  | M_final_release r =>
      let s1 := release Principal s in
      match r with
      | Normal => Some (ir_main M_despedida s1)
      | Excepcion => Some (ir_main (M_abortado Error_en_seccion) s1)
      end
  | M_despedida => Some (ir_main M_fin (print Msg_despedida s))
  | M_fin => None
  | M_abortado _ => None
  end.

(** *** The interleaving *)

Section Programa.

Variable E : Entorno.
Variable cfg : Config.

(** One step of thread [h]. *)
Definition paso (h : hilo_id) (s : estado) : option estado :=
  match h with
  | Principal => main E cfg s
  | Secundario =>
      contar_errores_en_fichero (nombre_archivo cfg) (palabra_clave cfg) s
  end.

(** The state in which the interpreter enters [main]. *)
Definition inicial (teclado : list string) (fs : string -> option string)
    : estado :=
  {| contador_errores := 0; semaforo := 1; hilo_terminado := false;
     pc_main := M_generar; pc_hilo := H_no_lanzado;
     ficheros := fs; entrada := teclado; salida := []; sorteos := 0;
     permisos_principal := 0; permisos_hilo := 0; traza := [] |}.

(** The state right after [hilo.start()] (line 224) when the secondary thread
    is pointed at whatever [fs] holds under the path, a missing file
    included. *)
Definition lanzado (teclado : list string) (fs : string -> option string)
    : estado :=
  {| contador_errores := 0; semaforo := 1; hilo_terminado := false;
     pc_main := M_menu; pc_hilo := H_inicio;
     ficheros := fs; entrada := teclado; salida := []; sorteos := 0;
     permisos_principal := 0; permisos_hilo := 0; traza := [] |}.

Inductive arranque : estado -> Prop :=
| arranque_inicial teclado fs : arranque (inicial teclado fs)
| arranque_lanzado teclado fs : arranque (lanzado teclado fs).

(** [pasos s s']: the program can go from [s] to [s'] under some schedule. *)
Inductive pasos (s : estado) : estado -> Prop :=
| pasos_nada : pasos s s
| pasos_mas h s1 s2 : pasos s s1 -> paso h s1 = Some s2 -> pasos s s2.

Definition alcanzable (s : estado) : Prop :=
  exists s0, arranque s0 /\ pasos s0 s.

(** Running a schedule; a thread that cannot move when its turn comes is
    skipped. *)
Fixpoint ejecutar (turnos : list hilo_id) (s : estado) : estado :=
  match turnos with
  | [] => s
  | h :: resto =>
      match paso h s with
      | Some s' => ejecutar resto s'
      | None => ejecutar resto s
      end
  end.

(** Running a schedule in which every turn must be a step. *)
Fixpoint ejecutar_estricto (turnos : list hilo_id) (s : estado) : option estado :=
  match turnos with
  | [] => Some s
  | h :: resto =>
      match paso h s with
      | Some s' => ejecutar_estricto resto s'
      | None => None
      end
  end.

(** *** What the count should be *)

(** The tally of the loop of lines 87-94 over a list of lines. *)
Definition conteo (palabra : string) (lineas : list string) : nat :=
  length (filter (contiene palabra) lineas).

(** The tally of the file the secondary thread is pointed at; 0 when it
    cannot be read. *)
Definition conteo_final (s : estado) : nat :=
  match ficheros s (nombre_archivo cfg) with
  | Some texto => conteo (palabra_clave cfg) (readlines texto)
  | None => 0
  end.

End Programa.


(* ------------------------------------------------------------------------- *)
(** ** Vocabulary of the invariants *)
(* ------------------------------------------------------------------------- *)

(** Control points between an [acquire] and the matching [release]. *)
Definition en_seccion_hilo (pc : pc_hilo_t) : bool :=
  match pc with
  | H_escribir _ | H_release _ _ => true
  | _ => false
  end.

Definition en_seccion_main (pc : pc_main_t) : bool :=
  match pc with
  | M_estado_leer_terminado | M_estado_leer_contador _ | M_estado_release _
  | M_final_leer | M_final_release _ => true
  | _ => false
  end.

(** The secondary thread is past the assignment of line 107 or past the
    handler of line 116: it will not assign [contador_errores] any more. *)
Definition publicado (pc : pc_hilo_t) : bool :=
  match pc with
  | H_release _ _ | H_aviso _ | H_finally | H_muerto => true
  | _ => false
  end.

(** The secondary thread has printed its last notice (line 114 or 118). *)
Definition avisado (pc : pc_hilo_t) : bool :=
  match pc with
  | H_finally | H_muerto => true
  | _ => false
  end.

(** The main thread has not executed [hilo.start()]. *)
Definition antes_de_lanzar (pc : pc_main_t) : bool :=
  match pc with
  | M_generar | M_lanzar | M_abortado Error_escritura => true
  | _ => false
  end.

(** The main thread has left the menu loop through [break] (line 252). *)
Definition tras_el_bucle (pc : pc_main_t) : bool :=
  match pc with
  | M_cabecera_final | M_final_acquire | M_final_leer | M_final_release _
  | M_despedida | M_fin => true
  | _ => false
  end.

(** The main thread has printed the final report (line 269). *)
Definition informe_hecho (pc : pc_main_t) : bool :=
  match pc with
  | M_final_release _ | M_despedida | M_fin => true
  | _ => false
  end.

(** The main thread will not move again. *)
Definition main_parado (pc : pc_main_t) : bool :=
  match pc with
  | M_fin | M_abortado _ => true
  | _ => false
  end.

Definition es_escritura (v : variable) (a : acceso) : bool :=
  match a_modo a, a_var a, v with
  | Escritura, V_contador, V_contador => true
  | Escritura, V_terminado, V_terminado => true
  | _, _, _ => false
  end.

(** Number of assignments to [v] made so far. *)
Definition escrituras (v : variable) (t : list acceso) : nat :=
  length (filter (es_escritura v) t).

(** An access to [contador_errores] is made with a permit of the semaphore. *)
Definition acceso_protegido (a : acceso) : Prop :=
  a_var a = V_contador -> a_con_semaforo a = true.

(** Only the secondary thread assigns the shared variables. *)
Definition escritor_unico (a : acceso) : Prop :=
  a_modo a = Escritura -> a_hilo a = Secundario.

Section Invariantes.

Variable E : Entorno.
Variable cfg : Config.

Definition legible (s : estado) : bool :=
  match ficheros s (nombre_archivo cfg) with
  | Some _ => true
  | None => false
  end.

(** What the secondary thread knows at each control point. *)
Definition hilo_coherente (s : estado) : Prop :=
  match pc_hilo s with
  | H_bucle pendientes i total contador_local =>
      exists texto hechas,
        ficheros s (nombre_archivo cfg) = Some texto /\
        readlines texto = (hechas ++ pendientes)%list /\
        i = length hechas /\
        total = length (readlines texto) /\
        contador_local = conteo (palabra_clave cfg) hechas
  | H_acquire n | H_escribir n | H_aviso n =>
      legible s = true /\ n = conteo_final cfg s
  | H_release r n =>
      legible s = true /\ n = conteo_final cfg s /\ r = Normal
  | H_except => legible s = false
  | _ => True
  end.

(** What the main thread knows at each control point. *)
Definition main_coherente (s : estado) : Prop :=
  match pc_main s with
  | M_generar => salida s = [] /\ traza s = []
  | M_estado_leer_contador true => pc_hilo s = H_muerto
  | M_estado_release r | M_final_release r => r = Normal
  | M_abortado Error_escritura =>
      puede_escribir E (nombre_archivo cfg) = false
  | M_abortado Fin_de_entrada => entrada s = []
  | M_abortado Error_en_seccion => False
  | _ => True
  end.

(** The values carried by what has been printed. *)
Definition mensaje_coherente (s : estado) (m : mensaje) : Prop :=
  match m with
  | Msg_resultado_final p n => p = palabra_clave cfg /\ n = conteo_final cfg s
  | Msg_conteo_finalizado n => n = conteo_final cfg s
  | Msg_procesando n => n = 0 \/ n = conteo_final cfg s
  | Msg_hilo_terminado n p =>
      p = palabra_clave cfg /\ n = conteo_final cfg s /\ legible s = true
  | Msg_error_hilo => legible s = false
  | _ => True
  end.

Record Inv (s : estado) : Prop := {
  inv_semaforo :
    semaforo s + permisos_principal s + permisos_hilo s = 1;
  inv_permisos_main :
    permisos_principal s = if en_seccion_main (pc_main s) then 1 else 0;
  inv_permisos_hilo :
    permisos_hilo s = if en_seccion_hilo (pc_hilo s) then 1 else 0;
  inv_lanzamiento :
    antes_de_lanzar (pc_main s) = true <-> pc_hilo s = H_no_lanzado;
  inv_hilo : hilo_coherente s;
  inv_main : main_coherente s;
  inv_contador :
    contador_errores s = if publicado (pc_hilo s) then conteo_final cfg s else 0;
  inv_terminado :
    hilo_terminado s = hilo_acabado (pc_hilo s);
  inv_tras_el_bucle :
    tras_el_bucle (pc_main s) = true -> pc_hilo s = H_muerto;
  inv_protegido : Forall acceso_protegido (traza s);
  inv_escritor : Forall escritor_unico (traza s);
  inv_escrituras_contador :
    escrituras V_contador (traza s) =
    if publicado (pc_hilo s) && legible s then 1 else 0;
  inv_escrituras_terminado :
    escrituras V_terminado (traza s) = if hilo_terminado s then 1 else 0;
  inv_salida : Forall (mensaje_coherente s) (salida s);
  inv_aviso_hilo :
    avisado (pc_hilo s) = true ->
    In (if legible s
        then Msg_hilo_terminado (conteo_final cfg s) (palabra_clave cfg)
        else Msg_error_hilo) (salida s);
  inv_informe :
    informe_hecho (pc_main s) = true ->
    In (Msg_resultado_final (palabra_clave cfg) (conteo_final cfg s)) (salida s)
}.



(** *** Termination measure *)

Definition lineas_fichero (s : estado) : nat :=
  match ficheros s (nombre_archivo cfg) with
  | Some texto => length (readlines texto)
  | None => 0
  end.

(** A bound on the steps the secondary thread still has to make. *)
Definition medida_hilo (s : estado) : nat :=
  match pc_hilo s with
  | H_no_lanzado => 0
  | H_inicio => lineas_fichero s + 10
  | H_abrir => lineas_fichero s + 9
  | H_bucle pendientes _ _ _ => length pendientes + 7
  | H_acquire _ => 6
  | H_escribir _ => 5
  | H_release _ _ => 4
  | H_aviso _ => 3
  | H_except => 2
  | H_finally => 1
  | H_muerto => 0
  end.

(** A bound on the steps the main thread can make before it needs another
    line of input; the two steps before the menu also pay for the secondary
    thread they are about to start. *)
Definition rango_main (s : estado) : nat :=
  match pc_main s with
  | M_generar => 3 + (num_lineas cfg + 10)
  | M_lanzar => 2 + (lineas_fichero s + 10)
  | M_menu => 1
  | M_pausa => 2
  | M_hora | M_mensaje | M_no_valida => 3
  | M_suma_1 | M_suma_2 _ => 3
  | M_estado_release _ => 3
  | M_estado_leer_contador _ => 4
  | M_estado_leer_terminado => 5
  | M_estado_acquire => 6
  | M_salir => 7
  | M_join => 6
  | M_cabecera_final => 5
  | M_final_acquire => 4
  | M_final_leer => 3
  | M_final_release _ => 2
  | M_despedida => 1
  | M_fin => 0
  | M_abortado _ => 0
  end.

Definition medida (s : estado) : nat :=
  20 * length (entrada s) + rango_main s + medida_hilo s.

(** Neither thread will move again: the main thread has stopped and the
    secondary thread has ended or was never started. *)
Definition final (s : estado) : Prop :=
  main_parado (pc_main s) = true /\
  (pc_hilo s = H_muerto \/ pc_hilo s = H_no_lanzado).

End Invariantes.

(** *** Notions of the specification *)

(** Number of lines of a text that contain the keyword, by the order-free
    notion of substring; a line is what [readlines] returns, its terminator
    included; the decision procedure is any that decides [Subcadena]. *)
Definition lineas_con
    (decide : forall k l, {Subcadena k l} + {~ Subcadena k l})
    (palabra texto : string) : nat :=
  length (filter (fun l => if decide palabra l then true else false)
            (readlines texto)).

(** Every access to the shared variables holds the semaphore. *)
Definition siempre_con_semaforo (a : acceso) : Prop :=
  a_con_semaforo a = true.

(** *** Sample environment *)

Definition es_blanco (c : ascii) : bool :=
  match nat_of_ascii c with
  | 9 | 10 | 11 | 12 | 13 | 28 | 29 | 30 | 31 | 32 => true
  | _ => false
  end.

Fixpoint lstrip (s : string) : string :=
  match s with
  | String c s' => if es_blanco c then lstrip s' else s
  | EmptyString => EmptyString
  end.

Fixpoint rstrip (s : string) : string :=
  match s with
  | String c s' =>
      match rstrip s' with
      | EmptyString => if es_blanco c then EmptyString else String c EmptyString
      | r => String c r
      end
  | EmptyString => EmptyString
  end.

(** An environment for the examples: [strip] over the ASCII white space,
    [float] accepting the non-empty strings of digits, a fixed sequence of
    draws, every path writable. *)
Definition entorno_ejemplo : Entorno :=
  {| strip := fun s => rstrip (lstrip s);
     es_float := fun s =>
       negb (String.eqb s "") &&
       forallb (fun c => (48 <=? nat_of_ascii c) && (nat_of_ascii c <=? 57))
         (list_ascii_of_string s);
     aleatorio := fun k => 7 * k + 1;
     puede_escribir := fun _ => true |}.

Definition config_ejemplo : Config :=
  {| nombre_archivo := "log.txt"; palabra_clave := "ERROR"; num_lineas := 4 |}.

(** A file of ten lines, three of them with the keyword. *)
Definition diez_lineas : string :=
  escribir_todo
    (map (fun l => l ++ String LF "")
       [ "INFO: uno"; "ERROR: dos"; "WARNING: tres"; "INFO: cuatro";
         "ERROR: cinco"; "DEBUG: seis"; "INFO: siete"; "error: ocho";
         "ERROR: nueve"; "INFO: diez" ]).

Definition solo (nombre texto : string) : string -> option string :=
  escribir_fichero nombre texto (fun _ => None).

Definition sin_ficheros : string -> option string := fun _ => None.

(** The user leaves at once: the main thread reaches [join] before the
    secondary thread has read a line, waits, and reports afterwards. *)
Definition turnos_salida_temprana : list hilo_id :=
  ([Principal; Principal; Principal] ++ repeat Secundario 20
     ++ repeat Principal 6)%list.

Definition estado_salida_temprana : estado :=
  ejecutar entorno_ejemplo config_ejemplo turnos_salida_temprana
    (lanzado ["5"] (solo "log.txt" diez_lineas)).

(** The same run with no file under the path. *)
Definition estado_sin_fichero : estado :=
  ejecutar entorno_ejemplo config_ejemplo turnos_salida_temprana
    (lanzado [" 5 "] sin_ficheros).

(** A whole run of [main]: the file is generated, the status is asked while
    the secondary thread works, an invalid option is typed, the status is
    asked again once the thread is done, and the user leaves. *)
Definition turnos_main : list hilo_id :=
  ([Principal; Principal; Secundario; Secundario] ++ repeat Principal 9
     ++ repeat Secundario 12 ++ repeat Principal 20)%list.

Definition estado_main : estado :=
  ejecutar entorno_ejemplo config_ejemplo turnos_main
    (inicial ["3"; "x"; "3"; "5"] sin_ficheros).

(** The secondary thread has ended and the main thread has just read the flag
    on its way out. *)
Definition estado_saliendo : estado :=
  ejecutar entorno_ejemplo config_ejemplo
    (repeat Secundario 20 ++ [Principal; Principal])%list
    (lanzado ["5"] (solo "log.txt" diez_lineas)).

(** The main thread is at the menu and the user types an invalid option while
    the secondary thread is in its loop. *)
Definition estado_en_menu : estado :=
  ejecutar entorno_ejemplo config_ejemplo
    [Secundario; Secundario; Secundario; Secundario]
    (lanzado [" 9"; "5"] (solo "log.txt" diez_lineas)).

(** *** Vocabulary for the console and the generated file *)

Definition cuenta_mensajes (f : mensaje -> bool) (l : list mensaje) : nat :=
  length (filter f l).

Definition es_progreso (m : mensaje) : bool :=
  match m with
  | Msg_progreso _ _ => true
  | _ => false
  end.

Definition es_informe (m : mensaje) : bool :=
  match m with
  | Msg_resultado_final _ _ => true
  | _ => false
  end.

(** The two ways the secondary thread takes leave: line 114 or line 118. *)
Definition es_aviso_final (m : mensaje) : bool :=
  match m with
  | Msg_hilo_terminado _ _ | Msg_error_hilo => true
  | _ => false
  end.

(** Positions of [mensajes_posibles] (lines 37-48) whose text starts with
    "ERROR". *)
Definition indice_error (j : nat) : bool :=
  match j with
  | 1 | 3 | 6 | 9 => true
  | _ => false
  end.

(** Among the [n] draws made from the [k0]-th on, those that pick one of
    these positions. *)
Definition errores_sorteados (E : Entorno) (k0 n : nat) : nat :=
  length (filter (fun i => indice_error (aleatorio E (k0 + i) mod 10))
            (seq 0 n)).

(** The character [c] does not occur in [s]. *)
Fixpoint sin_caracter (c : ascii) (s : string) : bool :=
  match s with
  | EmptyString => true
  | String x s' => negb (Ascii.eqb x c) && sin_caracter c s'
  end.

Section Consola.

Variable cfg : Config.

(** Lines the secondary thread has gone through. *)
Definition procesadas (s : estado) : nat :=
  match pc_hilo s with
  | H_no_lanzado | H_inicio | H_abrir => 0
  | H_bucle _ i _ _ => i
  | _ => lineas_fichero cfg s
  end.

(** A progress notice names a multiple of 1000 within the file. *)
Definition progreso_coherente (s : estado) (m : mensaje) : Prop :=
  match m with
  | Msg_progreso i total =>
      i mod 1000 = 0 /\ 0 < i /\ i <= total /\ total = lineas_fichero cfg s
  | _ => True
  end.

Record Inv_consola (s : estado) : Prop := {
  invc_informe :
    cuenta_mensajes es_informe (salida s) =
    if informe_hecho (pc_main s) then 1 else 0;
  invc_aviso :
    cuenta_mensajes es_aviso_final (salida s) =
    if avisado (pc_hilo s) then 1 else 0;
  invc_progreso :
    cuenta_mensajes es_progreso (salida s) = procesadas s / 1000;
  invc_coherente : Forall (progreso_coherente s) (salida s)
}.

End Consola.

(** Nothing the two threads share has changed between [s] and [s']. *)
Definition intacto (s s' : estado) : Prop :=
  contador_errores s' = contador_errores s /\
  hilo_terminado s' = hilo_terminado s /\
  semaforo s' = semaforo s /\
  pc_hilo s' = pc_hilo s /\
  ficheros s' = ficheros s /\
  traza s' = traza s.

(** The state in which [main] is left when the log file cannot be created
    (line 51 raises): the title and the first notice printed, nothing else
    done. *)
Definition estado_sin_generar (cfg : Config) (teclado : list string)
    (fs : string -> option string) : estado :=
  {| contador_errores := 0; semaforo := 1; hilo_terminado := false;
     pc_main := M_abortado Error_escritura; pc_hilo := H_no_lanzado;
     ficheros := fs; entrada := teclado;
     salida := [Msg_generando (num_lineas cfg); Msg_titulo]; sorteos := 0;
     permisos_principal := 0; permisos_hilo := 0; traza := [] |}.

(** More samples: an environment in which no file can be created, and a run
    of [main] over two thousand generated lines. *)
Definition entorno_sin_escritura : Entorno :=
  {| strip := strip entorno_ejemplo; es_float := es_float entorno_ejemplo;
     aleatorio := aleatorio entorno_ejemplo; puede_escribir := fun _ => false |}.

Definition config_dos_mil : Config :=
  {| nombre_archivo := "log.txt"; palabra_clave := "ERROR";
     num_lineas := 2000 |}.

Definition estado_dos_mil : estado :=
  ejecutar entorno_ejemplo config_dos_mil
    ([Principal; Principal] ++ repeat Secundario 2010)%list
    (inicial ["5"] sin_ficheros).

(** The main thread is about to ask for the two numbers of option 4. *)
Definition estado_en_suma (teclado : list string) : estado :=
  ejecutar entorno_ejemplo config_ejemplo [Principal]
    (lanzado ("4" :: teclado) (solo "log.txt" diez_lineas)).
(* ------------------------------------------------------------------------- *)
(** ** Facts about the text layer *)
(* ------------------------------------------------------------------------- *)

Section HechosTexto.

Lemma append_vacia_der (s : string) : s ++ "" = s.
Proof. induction s as [|c s IH]; simpl; [reflexivity | now rewrite IH]. Qed.

Lemma append_asoc (a b c : string) : (a ++ b) ++ c = a ++ (b ++ c).
Proof. induction a as [|x a IH]; simpl; [reflexivity | now rewrite IH]. Qed.

Lemma prefix_spec (k l : string) :
  String.prefix k l = true <-> exists despues, l = k ++ despues.
Proof.
  revert l; induction k as [|c k IH]; intros l; simpl.
  - split; [intros _; now exists l | now destruct l].
  - destruct l as [|d l].
    + split; [discriminate | intros [x Hx]; discriminate].
    + simpl. destruct (ascii_dec c d) as [->|Hne].
      * rewrite IH. split; intros [x Hx]; exists x.
        -- now rewrite Hx.
        -- now inversion Hx.
      * split; [discriminate | intros [x Hx]; inversion Hx; congruence].
Qed.

(** Python's [in] finds exactly the substrings. *)
Lemma contiene_eq (k l : string) :
  contiene k l =
  String.prefix k l ||
  match l with
  | EmptyString => false
  | String _ l' => contiene k l'
  end.
Proof. now destruct l. Qed.

(** Python's [in] finds exactly the substrings. *)
Lemma contiene_spec (k l : string) : contiene k l = true <-> Subcadena k l.
Proof.
  induction l as [|c l IH]; rewrite contiene_eq.
  - rewrite orb_false_r, prefix_spec. split.
    + intros [d Hd]. now exists "", d.
    + intros [a [d Hd]]. destruct a as [|x a]; [now exists d | discriminate].
  - rewrite orb_true_iff, prefix_spec, IH. split.
    + intros [[d Hd] | [a [d Hd]]].
      * now exists "", d.
      * exists (String c a), d. simpl. now rewrite Hd.
    + intros [a [d Hd]]. destruct a as [|x a].
      * left. now exists d.
      * right. exists a, d. simpl in Hd. now inversion Hd.
Qed.

(** [Subcadena] is decidable, by running the search. *)
Lemma Subcadena_dec (k l : string) : {Subcadena k l} + {~ Subcadena k l}.
Proof.
  destruct (contiene k l) eqn:H.
  - left. now apply contiene_spec.
  - right. intros C. apply contiene_spec in C. congruence.
Defined.

Lemma sin_saltos_append (a b : string) :
  sin_saltos (a ++ b) = sin_saltos a && sin_saltos b.
Proof.
  induction a as [|c a IH]; simpl; [reflexivity|].
  rewrite IH. now rewrite !andb_assoc.
Qed.

Lemma sin_saltos_uint (d : Decimal.uint) :
  sin_saltos (NilEmpty.string_of_uint d) = true.
Proof. induction d; simpl; auto. Qed.

Lemma sin_saltos_decimal (n : nat) : sin_saltos (decimal n) = true.
Proof. apply sin_saltos_uint. Qed.

Lemma saltos_universales_linea (cuerpo resto : string) :
  sin_saltos cuerpo = true ->
  saltos_universales (cuerpo ++ String LF resto) =
  cuerpo ++ String LF (saltos_universales resto).
Proof.
  induction cuerpo as [|c cuerpo IH]; simpl; intros H.
  - reflexivity.
  - apply andb_true_iff in H as [H1 H]. apply andb_true_iff in H1 as [_ H1].
    apply negb_true_iff in H1. rewrite H1. now rewrite IH.
Qed.

Lemma cortar_linea (cuerpo actual resto : string) :
  sin_saltos cuerpo = true ->
  cortar actual (cuerpo ++ String LF resto) =
  (actual ++ cuerpo ++ String LF "") :: cortar "" resto.
Proof.
  revert actual; induction cuerpo as [|c cuerpo IH]; simpl; intros actual H.
  - reflexivity.
  - apply andb_true_iff in H as [H1 H]. apply andb_true_iff in H1 as [H1 _].
    apply negb_true_iff in H1. rewrite H1, IH by assumption.
    now rewrite append_asoc.
Qed.

(** Reading back what was written line by line gives the lines written. *)
Lemma readlines_escribir_todo (ls : list string) :
  Forall linea_terminada ls -> readlines (escribir_todo ls) = ls.
Proof.
  unfold readlines. induction 1 as [|l ls [cuerpo [Hc ->]] _ IH]; simpl.
  - reflexivity.
  - rewrite append_asoc. simpl.
    rewrite saltos_universales_linea, cortar_linea by assumption.
    simpl. now rewrite IH.
Qed.

Lemma mensajes_posibles_sin_saltos (k : nat) :
  sin_saltos (nth k mensajes_posibles "") = true.
Proof. do 10 (destruct k as [|k]; [reflexivity|]). now destruct k. Qed.

Lemma linea_generada_terminada (E : Entorno) (k0 i : nat) :
  linea_terminada (linea_generada E k0 i).
Proof.
  exists ("[" ++ decimal (i + 1) ++ "] " ++ choice E (k0 + i) mensajes_posibles).
  split.
  - simpl. rewrite sin_saltos_append, sin_saltos_decimal. simpl.
    apply mensajes_posibles_sin_saltos.
  - unfold linea_generada. simpl. now rewrite !append_asoc.
Qed.

Lemma readlines_texto_generado (E : Entorno) (k0 n : nat) :
  readlines (texto_generado E k0 n) = map (linea_generada E k0) (seq 0 n).
Proof.
  apply readlines_escribir_todo, Forall_forall. intros l Hl.
  apply in_map_iff in Hl as [i [<- _]]. apply linea_generada_terminada.
Qed.

End HechosTexto.

Example contiene_ERROR :
  contiene "ERROR" ("[7] ERROR: Permiso denegado" ++ String LF "") = true.
Proof. reflexivity. Qed.

Example contiene_distingue_mayusculas :
  contiene "ERROR" ("[7] error: permiso denegado" ++ String LF "") = false.
Proof. reflexivity. Qed.

Example contiene_vacia : contiene "" "INFO" = true.
Proof. reflexivity. Qed.

Example readlines_tres :
  readlines ("a" ++ String LF ("b" ++ String CR (String LF "c"))) =
  ["a" ++ String LF ""; "b" ++ String LF ""; "c"].
Proof. reflexivity. Qed.

Example readlines_vacio : readlines "" = [].
Proof. reflexivity. Qed.

Example decimal_5000 : decimal 5000 = "5000".
Proof. reflexivity. Qed.

Example linea_generada_primera :
  linea_generada entorno_ejemplo 0 0 =
  "[1] ERROR: No se pudo conectar a la base de datos" ++ String LF "".
Proof. reflexivity. Qed.

Example strip_ejemplo : strip entorno_ejemplo "  5 " = "5".
Proof. reflexivity. Qed.

(* ------------------------------------------------------------------------- *)
(** ** The invariants hold in every reachable state *)
(* ------------------------------------------------------------------------- *)

Lemma despachar_casos (opcion : string) :
  despachar opcion = M_hora \/ despachar opcion = M_mensaje \/
  despachar opcion = M_estado_acquire \/ despachar opcion = M_suma_1 \/
  despachar opcion = M_salir \/ despachar opcion = M_no_valida.
Proof.
  unfold despachar.
  repeat match goal with
         | |- context [if ?b then _ else _] => destruct b
         end; auto 10.
Qed.

(** Unfolding one step into its cases. *)
Ltac desplegar_en H :=
  unfold paso, main, contar_errores_en_fichero, generar_fichero_grande,
    acquire, release, leer_contador, leer_terminado, escribir_contador,
    escribir_terminado, anotar, print, input, tiene_semaforo, permisos,
    option_map in H;
  simpl in H.

Ltac partir_en H :=
  repeat match type of H with
         | context [match ?x with _ => _ end] =>
             lazymatch x with
             | context [match _ with _ => _ end] => fail
             | _ => destruct x eqn:?; simpl in H
             end
         end.

Ltac un_paso H s' :=
  desplegar_en H; partir_en H;
  try discriminate H;
  injection H as H; try subst s'.

Ltac saturar :=
  repeat match goal with
         | H : true = true <-> ?x = ?y |- _ =>
             let H' := fresh in
             assert (H' : x = y) by (apply H; reflexivity); clear H
         | H : true = true -> _ |- _ => specialize (H eq_refl)
         | H : ?t = hilo_acabado ?pc, H2 : ?t = true |- _ =>
             rewrite H in H2
         | H : true = hilo_acabado ?pc |- _ => symmetry in H
         | H : hilo_acabado ?pc = true |- _ =>
             destruct pc; try discriminate H; clear H
         | H : ?pc = H_muerto |- _ => is_var pc; subst pc
         | H : ?pc = H_no_lanzado |- _ => is_var pc; subst pc
         | H : _ /\ _ |- _ => destruct H
         end.

Ltac caso_fichero :=
  repeat match goal with
         | H : context [match ?f (nombre_archivo ?c) with _ => _ end] |- _ =>
             destruct (f (nombre_archivo c)) eqn:?
         | |- context [match ?f (nombre_archivo ?c) with _ => _ end] =>
             destruct (f (nombre_archivo c)) eqn:?
         end.

Ltac preparar I H s h s' :=
  destruct s; destruct h; un_paso H s'; destruct I;
  unfold hilo_coherente, main_coherente, legible, conteo_final, escrituras,
    escribir_fichero in *;
  simpl in *; saturar; simpl in *;
  try rewrite String.eqb_refl in *.

Ltac por_despachar :=
  match goal with
  | |- context [despachar ?o] =>
      destruct (despachar_casos o) as [Hd|[Hd|[Hd|[Hd|[Hd|Hd]]]]];
      rewrite Hd in *; simpl in *
  end.

Ltac usar_fichero :=
  repeat match goal with
         | H : ?f (nombre_archivo ?c) = _ |- _ => rewrite H in *
         end.

Ltac rematar :=
  simpl in *; try por_despachar; usar_fichero; caso_fichero; simpl in *;
  try solve [ tauto | lia | congruence | discriminate | intuition congruence
            | intuition discriminate | intuition lia ].

Lemma mensaje_coherente_ext (cfg : Config) (s1 s2 : estado) (m : mensaje) :
  ficheros s1 (nombre_archivo cfg) = ficheros s2 (nombre_archivo cfg) ->
  mensaje_coherente cfg s1 m -> mensaje_coherente cfg s2 m.
Proof.
  intros Hf. destruct m; simpl; unfold conteo_final, legible;
    rewrite ?Hf; auto.
Qed.

Ltac salida_vieja :=
  match goal with
  | H : Forall (mensaje_coherente _ _) ?l |- Forall (mensaje_coherente _ _) ?l =>
      eapply Forall_impl; [| exact H];
      intros ?; apply mensaje_coherente_ext; reflexivity
  end.

Section Pruebas.

Arguments toca_progreso : simpl never.
Arguments Nat.modulo : simpl never.

Variable E : Entorno.
Variable cfg : Config.

Lemma Inv_arranque (s : estado) : arranque s -> Inv E cfg s.
Proof.
  intros [teclado fs | teclado fs]; constructor; simpl;
    try reflexivity; try constructor; try discriminate; auto;
    try (split; discriminate).
Qed.

Lemma paso_semaforo h s s' :
  Inv E cfg s -> paso E cfg h s = Some s' ->
  semaforo s' + permisos_principal s' + permisos_hilo s' = 1.
Proof. intros I H. preparar I H s h s'; lia. Qed.

Lemma paso_permisos_main h s s' :
  Inv E cfg s -> paso E cfg h s = Some s' ->
  permisos_principal s' = if en_seccion_main (pc_main s') then 1 else 0.
Proof. intros I H. preparar I H s h s'; rematar. Qed.

Lemma paso_permisos_hilo h s s' :
  Inv E cfg s -> paso E cfg h s = Some s' ->
  permisos_hilo s' = if en_seccion_hilo (pc_hilo s') then 1 else 0.
Proof. intros I H. preparar I H s h s'; rematar. Qed.

Lemma paso_lanzamiento h s s' :
  Inv E cfg s -> paso E cfg h s = Some s' ->
  antes_de_lanzar (pc_main s') = true <-> pc_hilo s' = H_no_lanzado.
Proof. intros I H. preparar I H s h s'; rematar. Qed.

Lemma conteo_snoc (p : string) (hechas : list string) (l : string) :
  conteo p (hechas ++ [l])%list =
  conteo p hechas + (if contiene p l then 1 else 0).
Proof.
  unfold conteo. rewrite filter_app, length_app. simpl.
  now destruct (contiene p l).
Qed.

Lemma paso_hilo h s s' :
  Inv E cfg s -> paso E cfg h s = Some s' ->
  hilo_coherente cfg s'.
Proof.
  intros I H. preparar I H s h s'; rematar.
  all: try match goal with
    | H : exists _ _, _ |- _ => destruct H as (texto & hechas & ? & ? & ? & ? & ?)
    end; usar_fichero.
  all: try match goal with
    | H : Some _ = Some _ |- _ => injection H as H; subst
    end.
  all: try discriminate.
  all: try solve [eexists _, []; simpl; repeat split; reflexivity].
  all: match goal with
       | H : readlines ?t = (?hs ++ [])%list |- _ =>
           rewrite app_nil_r in H; rewrite H; split; reflexivity
       | H : readlines ?t = (?hs ++ ?x :: ?l)%list,
         C : contiene _ ?x = _ |- _ =>
           exists t, (hs ++ [x])%list;
           rewrite <- app_assoc, length_app, conteo_snoc, C; simpl;
           repeat split; auto; lia
       end.
Qed.

Lemma paso_main h s s' :
  Inv E cfg s -> paso E cfg h s = Some s' ->
  main_coherente E cfg s'.
Proof.
  intros I H. preparar I H s h s'; rematar.
  all: try match goal with
           | H : ?t = hilo_acabado ?pc |- context [if ?t then _ else _] =>
               destruct pc; simpl in H; subst t; simpl; auto
           end.
  all: try match goal with
           | |- match ?pc with _ => _ end =>
               destruct pc; simpl in *; saturar; rematar
           end.
  all: match goal with
       | |- if ?t then _ else _ =>
           destruct t; simpl in *; try discriminate; auto
       end.
Qed.

Lemma paso_contador h s s' :
  Inv E cfg s -> paso E cfg h s = Some s' ->
  contador_errores s' = if publicado (pc_hilo s') then conteo_final cfg s' else 0.
Proof. intros I H. preparar I H s h s'; rematar. Qed.

Lemma paso_terminado h s s' :
  Inv E cfg s -> paso E cfg h s = Some s' ->
  hilo_terminado s' = hilo_acabado (pc_hilo s').
Proof. intros I H. preparar I H s h s'; rematar. Qed.

Lemma paso_tras_el_bucle h s s' :
  Inv E cfg s -> paso E cfg h s = Some s' ->
  tras_el_bucle (pc_main s') = true -> pc_hilo s' = H_muerto.
Proof.
  intros I H. preparar I H s h s'; rematar.
  all: saturar; auto.
Qed.

Lemma paso_protegido h s s' :
  Inv E cfg s -> paso E cfg h s = Some s' ->
  Forall acceso_protegido (traza s').
Proof.
  intros I H. preparar I H s h s'; rematar.
  all: constructor; [| assumption].
  all: unfold acceso_protegido; simpl; intros; try discriminate.
  all: repeat match goal with
              | H : ?v = 1 |- _ => is_var v; subst v
              end; try reflexivity.
Qed.

Lemma paso_escritor h s s' :
  Inv E cfg s -> paso E cfg h s = Some s' ->
  Forall escritor_unico (traza s').
Proof.
  intros I H. preparar I H s h s'; rematar.
  all: constructor; [| assumption].
  all: unfold escritor_unico; simpl; intros; try discriminate; try reflexivity.
Qed.

Lemma paso_escrituras_contador h s s' :
  Inv E cfg s -> paso E cfg h s = Some s' ->
  escrituras V_contador (traza s') = if publicado (pc_hilo s') && legible cfg s' then 1 else 0.
Proof. intros I H. preparar I H s h s'; rematar. Qed.

Lemma paso_escrituras_terminado h s s' :
  Inv E cfg s -> paso E cfg h s = Some s' ->
  escrituras V_terminado (traza s') = if hilo_terminado s' then 1 else 0.
Proof.
  intros I H. preparar I H s h s'; rematar.
  all: repeat match goal with
              | H : ?v = false |- _ => is_var v; subst v
              end; simpl in *; lia.
Qed.

Lemma paso_salida h s s' :
  Inv E cfg s -> paso E cfg h s = Some s' ->
  Forall (mensaje_coherente cfg s') (salida s').
Proof.
  intros I H. preparar I H s h s'; rematar.
  all: try solve [salida_vieja].
  all: repeat match goal with
              | H : ?v = [] |- _ => is_var v; subst v
              end.
  all: repeat (apply Forall_cons;
               [ cbn; unfold conteo_final, legible; cbn; usar_fichero;
                 try match goal with
                     | |- context [publicado ?pc] => destruct (publicado pc)
                     end;
                 try solve [ auto | intuition congruence ]
               | ]).
  all: try apply Forall_nil; try salida_vieja.
  all: match goal with
       | H : ?c = (if publicado ?pc then _ else _) |- _ =>
           destruct (publicado pc); subst c; auto
       end.
Qed.

Lemma paso_aviso_hilo h s s' :
  Inv E cfg s -> paso E cfg h s = Some s' ->
  avisado (pc_hilo s') = true -> In (if legible cfg s' then Msg_hilo_terminado (conteo_final cfg s') (palabra_clave cfg) else Msg_error_hilo) (salida s').
Proof. intros I H. preparar I H s h s'; rematar. Qed.

Lemma paso_informe h s s' :
  Inv E cfg s -> paso E cfg h s = Some s' ->
  informe_hecho (pc_main s') = true -> In (Msg_resultado_final (palabra_clave cfg) (conteo_final cfg s')) (salida s').
Proof. intros I H. preparar I H s h s'; rematar. Qed.

Lemma Inv_paso h s s' :
  Inv E cfg s -> paso E cfg h s = Some s' -> Inv E cfg s'.
Proof.
  intros I H. constructor.
  - eapply paso_semaforo; eassumption.
  - eapply paso_permisos_main; eassumption.
  - eapply paso_permisos_hilo; eassumption.
  - eapply paso_lanzamiento; eassumption.
  - eapply paso_hilo; eassumption.
  - eapply paso_main; eassumption.
  - eapply paso_contador; eassumption.
  - eapply paso_terminado; eassumption.
  - eapply paso_tras_el_bucle; eassumption.
  - eapply paso_protegido; eassumption.
  - eapply paso_escritor; eassumption.
  - eapply paso_escrituras_contador; eassumption.
  - eapply paso_escrituras_terminado; eassumption.
  - eapply paso_salida; eassumption.
  - eapply paso_aviso_hilo; eassumption.
  - eapply paso_informe; eassumption.
Qed.

Lemma Inv_pasos s0 s : Inv E cfg s0 -> pasos E cfg s0 s -> Inv E cfg s.
Proof.
  intros I0 H. induction H as [|h s1 s2 _ IH Hp]; [assumption|].
  eapply Inv_paso; eassumption.
Qed.

Lemma Inv_alcanzable s : alcanzable E cfg s -> Inv E cfg s.
Proof.
  intros (s0 & H0 & H). eapply Inv_pasos; [|eassumption].
  now apply Inv_arranque.
Qed.

End Pruebas.

(* ------------------------------------------------------------------------- *)
(** ** Runs, frames, progress and termination *)
(* ------------------------------------------------------------------------- *)

Section Carreras.

Variable E : Entorno.
Variable cfg : Config.

Arguments toca_progreso : simpl never.
Arguments Nat.modulo : simpl never.

Lemma pasos_trans s0 s1 s2 :
  pasos E cfg s0 s1 -> pasos E cfg s1 s2 -> pasos E cfg s0 s2.
Proof.
  intros H01 H12. induction H12 as [|h s2 s3 _ IH Hp]; [assumption|].
  eapply pasos_mas; eassumption.
Qed.

Lemma ejecutar_pasos turnos s : pasos E cfg s (ejecutar E cfg turnos s).
Proof.
  revert s; induction turnos as [|h turnos IH]; intros s; simpl.
  - constructor.
  - destruct (paso E cfg h s) as [s'|] eqn:Hp; [|apply IH].
    eapply pasos_trans; [|apply IH].
    eapply pasos_mas; [constructor | eassumption].
Qed.

Lemma ejecutar_estricto_pasos turnos s s' :
  ejecutar_estricto E cfg turnos s = Some s' -> pasos E cfg s s'.
Proof.
  revert s; induction turnos as [|h turnos IH]; intros s; simpl.
  - intros [= <-]. constructor.
  - destruct (paso E cfg h s) as [s1|] eqn:Hp; [|discriminate].
    intros H. eapply pasos_trans; [|apply IH, H].
    eapply pasos_mas; [constructor | eassumption].
Qed.

Lemma alcanzable_arranque s : arranque s -> alcanzable E cfg s.
Proof. intros H. exists s. split; [assumption | constructor]. Qed.

Lemma alcanzable_pasos s s' :
  alcanzable E cfg s -> pasos E cfg s s' -> alcanzable E cfg s'.
Proof.
  intros (s0 & H0 & H) H'. exists s0. split; [assumption|].
  eapply pasos_trans; eassumption.
Qed.

Lemma alcanzable_ejecutar turnos s :
  alcanzable E cfg s -> alcanzable E cfg (ejecutar E cfg turnos s).
Proof. intros H. eapply alcanzable_pasos; [eassumption | apply ejecutar_pasos]. Qed.

Lemma Inv_lanzado_pasos teclado fs s :
  pasos E cfg (lanzado teclado fs) s -> Inv E cfg s.
Proof. apply Inv_pasos, Inv_arranque. constructor. Qed.


(** The ground truth of the specification is what the loop computes. *)
Lemma conteo_lineas_con decide palabra texto :
  conteo palabra (readlines texto) = lineas_con decide palabra texto.
Proof.
  unfold conteo, lineas_con. f_equal. apply filter_ext. intros l.
  destruct (decide palabra l) as [H|H].
  - now apply contiene_spec.
  - destruct (contiene palabra l) eqn:C; [|reflexivity].
    apply contiene_spec in C. contradiction.
Qed.

(** *** Frames *)

(** Only [generar_fichero_grande] touches the files. *)
Lemma paso_ficheros h s s' :
  paso E cfg h s = Some s' -> pc_main s <> M_generar ->
  ficheros s' = ficheros s.
Proof.
  intros H Hpc. destruct s; destruct h; un_paso H s'; simpl in *;
    congruence.
Qed.

(** No step leads back to the generation of the file. *)
Lemma paso_no_generar h s s' :
  paso E cfg h s = Some s' -> pc_main s <> M_generar ->
  pc_main s' <> M_generar.
Proof.
  intros H Hpc. destruct s; destruct h; un_paso H s'; simpl in *;
    try congruence; try discriminate.
  destruct (despachar_casos (strip E s)) as [Hd|[Hd|[Hd|[Hd|[Hd|Hd]]]]];
    rewrite Hd; discriminate.
Qed.

Lemma lanzado_ficheros teclado fs s :
  pasos E cfg (lanzado teclado fs) s ->
  ficheros s = fs /\ pc_main s <> M_generar.
Proof.
  induction 1 as [|h s1 s2 _ [IHf IHpc] Hp].
  - split; [reflexivity | discriminate].
  - split.
    + rewrite <- IHf. eapply paso_ficheros; eassumption.
    + eapply paso_no_generar; eassumption.
Qed.

(** A step of the secondary thread leaves the main thread and the keyboard
    alone. *)
Lemma paso_hilo_marco s s' :
  paso E cfg Secundario s = Some s' ->
  pc_main s' = pc_main s /\ entrada s' = entrada s /\
  ficheros s' = ficheros s /\ permisos_principal s' = permisos_principal s.
Proof.
  intros H. destruct s; un_paso H s'; simpl in *; auto.
Qed.

(** *** Termination *)

Lemma lineas_texto_generado (k0 n : nat) :
  length (readlines (texto_generado E k0 n)) = n.
Proof. now rewrite readlines_texto_generado, length_map, length_seq. Qed.

(** Every step consumes some of the measure. *)
Lemma paso_medida h s s' :
  Inv E cfg s -> paso E cfg h s = Some s' -> medida cfg s' < medida cfg s.
Proof.
  intros I H. preparar I H s h s';
    unfold medida, rango_main, medida_hilo, lineas_fichero, escribir_fichero;
    simpl; try por_despachar; usar_fichero;
    rewrite ?String.eqb_refl, ?lineas_texto_generado;
    try lia.
Qed.

(** No run is longer than the measure of its first state. *)
Lemma carrera_acotada turnos s s' :
  Inv E cfg s -> ejecutar_estricto E cfg turnos s = Some s' ->
  length turnos + medida cfg s' <= medida cfg s.
Proof.
  revert s; induction turnos as [|h turnos IH]; intros s I; simpl.
  - intros [= <-]. lia.
  - destruct (paso E cfg h s) as [s1|] eqn:Hp; [|discriminate].
    intros H. pose proof (paso_medida _ _ _ I Hp).
    apply IH in H; [lia|]. eapply Inv_paso; eassumption.
Qed.

(** *** Progress *)

(** Unless the program has come to its end, some thread can move: the
    semaphore and [join] never leave both threads waiting. *)
Lemma progreso s :
  Inv E cfg s -> (exists h s', paso E cfg h s = Some s') \/ final s.
Proof.
  intros I.
  destruct (paso E cfg Principal s) as [s1|] eqn:HP; [left; eauto|].
  destruct (paso E cfg Secundario s) as [s1|] eqn:HS; [left; eauto|].
  right. destruct s; destruct I; unfold final; simpl in *.
  desplegar_en HP; partir_en HP; try discriminate HP;
    desplegar_en HS; partir_en HS; try discriminate HS;
    simpl in *; subst; simpl in *;
    try lia; try (split; [reflexivity | auto]);
    try match goal with
        | H : false = true <-> ?x = ?x |- _ =>
            destruct H as [_ H]; discriminate (H eq_refl)
        end.
Qed.

(** While the main thread holds no permit, the secondary thread can always
    make its next step. *)
Lemma hilo_solo_avanza s :
  Inv E cfg s -> permisos_principal s = 0 ->
  pc_hilo s <> H_no_lanzado -> pc_hilo s <> H_muerto ->
  exists s', paso E cfg Secundario s = Some s'.
Proof.
  intros I Hp Hn Hm.
  destruct (paso E cfg Secundario s) as [s1|] eqn:HS; [eauto|].
  exfalso. destruct s; destruct I; simpl in *.
  desplegar_en HS; partir_en HS; try discriminate HS;
    simpl in *; subst; simpl in *; try lia; congruence.
Qed.

Lemma paso_hilo_sigue s s' :
  paso E cfg Secundario s = Some s' -> pc_hilo s' <> H_no_lanzado.
Proof. intros H. destruct s; un_paso H s'; simpl; discriminate. Qed.

Lemma paso_hilo_medida s s' :
  Inv E cfg s -> paso E cfg Secundario s = Some s' ->
  medida_hilo cfg s' < medida_hilo cfg s.
Proof.
  intros I H. pose proof (paso_medida _ _ _ I H) as Hm.
  destruct (paso_hilo_marco _ _ H) as (Hpc & He & Hf & _).
  unfold medida, rango_main, lineas_fichero in Hm.
  rewrite Hpc, He, Hf in Hm. lia.
Qed.

Lemma hilo_muerto_quieto n s :
  pc_hilo s = H_muerto -> ejecutar E cfg (repeat Secundario n) s = s.
Proof.
  intros Hm. induction n as [|n IH]; simpl; [reflexivity|].
  unfold contar_errores_en_fichero. now rewrite Hm.
Qed.

(** Left alone, the secondary thread runs to its end. *)
Lemma hilo_solo_termina n s :
  Inv E cfg s -> permisos_principal s = 0 -> pc_hilo s <> H_no_lanzado ->
  medida_hilo cfg s <= n ->
  pc_hilo (ejecutar E cfg (repeat Secundario n) s) = H_muerto.
Proof.
  revert s; induction n as [|n IH]; intros s I Hp Hn Hm.
  - simpl. unfold medida_hilo in Hm.
    destruct (pc_hilo s) eqn:Hpc; try lia; congruence.
  - destruct (pc_hilo s) eqn:Hpc;
      try (destruct (hilo_solo_avanza s I Hp) as [s' Hs']; [congruence..|];
           simpl; change (contar_errores_en_fichero (nombre_archivo cfg)
                            (palabra_clave cfg) s)
                    with (paso E cfg Secundario s);
           rewrite Hs';
           apply IH;
           [ eapply Inv_paso; eassumption
           | destruct (paso_hilo_marco _ _ Hs') as (_ & _ & _ & Hq); congruence
           | eapply paso_hilo_sigue; eassumption
           | pose proof (paso_hilo_medida _ _ I Hs'); lia ]).
    rewrite hilo_muerto_quieto; assumption.
Qed.

(** *** After the flag *)

(** Once [hilo_terminado] is set, no step changes the shared variables or the
    number of assignments made to them. *)
Lemma congelado_paso h s s' :
  Inv E cfg s -> hilo_terminado s = true -> paso E cfg h s = Some s' ->
  contador_errores s' = contador_errores s /\ hilo_terminado s' = true /\
  escrituras V_contador (traza s') = escrituras V_contador (traza s) /\
  escrituras V_terminado (traza s') = escrituras V_terminado (traza s).
Proof.
  intros I Ht H. preparar I H s h s'; subst; simpl in *; saturar;
    try discriminate; auto.
Qed.

Lemma congelado_pasos s s' :
  Inv E cfg s -> hilo_terminado s = true -> pasos E cfg s s' ->
  contador_errores s' = contador_errores s /\ hilo_terminado s' = true /\
  escrituras V_contador (traza s') = escrituras V_contador (traza s) /\
  escrituras V_terminado (traza s') = escrituras V_terminado (traza s).
Proof.
  intros I Ht H. induction H as [|h s1 s2 H1 (IHc & IHt & IHe & IHf) Hp].
  - auto.
  - destruct (congelado_paso h s1 s2) as (Hc & Ht2 & He & Hf); auto.
    + eapply Inv_pasos; eassumption.
    + repeat split; congruence.
Qed.

(** *** Starting in main *)




End Carreras.

(* ------------------------------------------------------------------------- *)
(** ** Properties of the program *)
(* ------------------------------------------------------------------------- *)

Section Propiedades.

Variable E : Entorno.
Variable cfg : Config.

Lemma lanzado_sigue teclado fs s :
  pasos E cfg (lanzado teclado fs) s -> pc_hilo s <> H_no_lanzado.
Proof.
  intros H. pose proof (Inv_lanzado_pasos _ _ _ _ _ H) as I.
  destruct (lanzado_ficheros _ _ _ _ _ H) as [_ Hg].
  induction H as [|h s1 s2 H1 IH Hp].
  - discriminate.
  - destruct h.
    + destruct (lanzado_ficheros _ _ _ _ _ H1) as [_ Hg1].
      pose proof (Inv_lanzado_pasos _ _ _ _ _ H1) as I1.
      specialize (IH I1 Hg1).
      destruct s1; un_paso Hp s2; simpl in *; congruence.
    + eapply paso_hilo_sigue; eassumption.
Qed.

(** C1. Started on a readable file, the secondary thread runs to its end:
    left alone it ends within the number of lines plus ten steps, under any
    schedule some thread can move until it has ended, and no run is longer
    than the measure.  Once it has ended the shared count [contador_errores]
    is the number of lines of the file (as [readlines] cuts them) that contain
    the keyword as a case-sensitive substring, whatever the main thread did
    meanwhile; that number is 0 for the empty file and for a file none of
    whose lines contains the keyword. *)
Theorem C1_conteo_del_fichero (teclado : list string)
    (fs : string -> option string) (texto : string) :
  fs (nombre_archivo cfg) = Some texto ->
  pc_hilo (ejecutar E cfg (repeat Secundario (length (readlines texto) + 10))
             (lanzado teclado fs)) = H_muerto /\
  (forall s, pasos E cfg (lanzado teclado fs) s ->
     ((exists h s', paso E cfg h s = Some s') \/ pc_hilo s = H_muerto) /\
     (forall turnos s', ejecutar_estricto E cfg turnos s = Some s' ->
        length turnos <= medida cfg s) /\
     (pc_hilo s = H_muerto ->
      contador_errores s =
      lineas_con Subcadena_dec (palabra_clave cfg) texto)) /\
  (texto = "" -> lineas_con Subcadena_dec (palabra_clave cfg) texto = 0) /\
  ((forall l, In l (readlines texto) -> ~ Subcadena (palabra_clave cfg) l) ->
   lineas_con Subcadena_dec (palabra_clave cfg) texto = 0).
Proof.
  intros Hf. split; [|split; [|split]].
  - apply hilo_solo_termina.
    + apply Inv_arranque. constructor.
    + reflexivity.
    + discriminate.
    + unfold medida_hilo, lineas_fichero. simpl. rewrite Hf. lia.
  - intros s Hs.
    pose proof (Inv_lanzado_pasos _ _ _ _ _ Hs) as I.
    destruct (lanzado_ficheros _ _ _ _ _ Hs) as [Hfs _].
    split; [|split].
    + destruct (progreso _ _ _ I) as [Hp | [_ [Hm | Hn]]]; auto.
      exfalso. now apply (lanzado_sigue _ _ _ Hs).
    + intros turnos s' Hrun.
      pose proof (carrera_acotada _ _ _ _ _ I Hrun). lia.
    + intros Hm. rewrite (inv_contador _ _ _ I), Hm. simpl.
      unfold conteo_final. rewrite Hfs, Hf. apply conteo_lineas_con.
  - intros ->. reflexivity.
  - intros Hno. unfold lineas_con.
    induction (readlines texto) as [|l ls IH]; [reflexivity|]. simpl.
    destruct (Subcadena_dec (palabra_clave cfg) l) as [Hl|Hl].
    + exfalso. apply (Hno l); [now left | assumption].
    + apply IH. intros l' Hl'. apply Hno. now right.
Qed.

(** C2, as the program has it.  Every read and every write of
    [contador_errores] is made by a thread that holds a permit of [semaforo].
    The flag [hilo_terminado] is outside that discipline: the secondary thread
    assigns it (line 122) and the exit path of the main thread reads it (line
    248) holding no permit; only the status display (line 167) reads it inside
    the semaphore. *)
Theorem C2_contador_bajo_semaforo (s : estado) :
  alcanzable E cfg s ->
  Forall acceso_protegido (traza s) /\
  (pc_hilo s = H_finally ->
   exists s', paso E cfg Secundario s = Some s' /\
     traza s' = {| a_hilo := Secundario; a_var := V_terminado;
                   a_modo := Escritura; a_con_semaforo := false |} :: traza s) /\
  (pc_main s = M_salir ->
   exists s', paso E cfg Principal s = Some s' /\
     traza s' = {| a_hilo := Principal; a_var := V_terminado;
                   a_modo := Lectura; a_con_semaforo := false |} :: traza s) /\
  (pc_main s = M_estado_leer_terminado ->
   exists s', paso E cfg Principal s = Some s' /\
     traza s' = {| a_hilo := Principal; a_var := V_terminado;
                   a_modo := Lectura; a_con_semaforo := true |} :: traza s).
Proof.
  intros Hs. apply Inv_alcanzable in Hs as I.
  split; [apply (inv_protegido _ _ _ I)|].
  pose proof (inv_permisos_main _ _ _ I) as Hpm.
  pose proof (inv_permisos_hilo _ _ _ I) as Hph.
  repeat split; intros Hpc; rewrite Hpc in *; simpl in *;
    unfold main, contar_errores_en_fichero; rewrite Hpc;
    unfold leer_terminado, escribir_terminado, anotar, tiene_semaforo, permisos;
    simpl.
  - rewrite Hph. eexists; split; reflexivity.
  - rewrite Hpm. destruct (hilo_terminado s); eexists; split; reflexivity.
  - rewrite Hpm. eexists; split; reflexivity.
Qed.

(** C3. On the exit command the main thread reads the flag; if it is still
    false it goes to [join], where it cannot move until the secondary thread
    has ended; it leaves the menu loop only with the secondary thread ended,
    so every final report printed carries the count of the whole file, never
    the count of a part of it. *)
Theorem C3_informe_tras_el_hilo (s : estado) :
  alcanzable E cfg s ->
  (pc_main s = M_salir ->
   exists s', paso E cfg Principal s = Some s' /\
     pc_main s' = if hilo_terminado s then M_cabecera_final else M_join) /\
  (pc_main s = M_join -> pc_hilo s <> H_muerto ->
   paso E cfg Principal s = None) /\
  (pc_main s = M_join -> pc_hilo s = H_muerto ->
   exists s', paso E cfg Principal s = Some s' /\ pc_main s' = M_cabecera_final) /\
  (tras_el_bucle (pc_main s) = true ->
   pc_hilo s = H_muerto /\ hilo_terminado s = true /\
   contador_errores s = conteo_final cfg s) /\
  (forall p n, In (Msg_resultado_final p n) (salida s) ->
     n = conteo_final cfg s) /\
  (forall texto, ficheros s (nombre_archivo cfg) = Some texto ->
     conteo_final cfg s = lineas_con Subcadena_dec (palabra_clave cfg) texto).
Proof.
  intros Hs. apply Inv_alcanzable in Hs as I. repeat split.
  - intros Hpc. unfold paso, main. rewrite Hpc.
    unfold leer_terminado. simpl.
    destruct (hilo_terminado s); eexists; split; reflexivity.
  - intros Hpc Hm. unfold paso, main. rewrite Hpc.
    destruct (pc_hilo s); try reflexivity. congruence.
  - intros Hpc Hm. unfold paso, main. rewrite Hpc, Hm. simpl.
    eexists; split; reflexivity.
  - now apply (inv_tras_el_bucle _ _ _ I).
  - rewrite (inv_terminado _ _ _ I), (inv_tras_el_bucle _ _ _ I H). reflexivity.
  - rewrite (inv_contador _ _ _ I), (inv_tras_el_bucle _ _ _ I H). reflexivity.
  - intros p n Hin.
    pose proof (inv_salida _ _ _ I) as Hsal.
    rewrite Forall_forall in Hsal. apply Hsal in Hin. simpl in Hin. tauto.
  - intros texto Hf. unfold conteo_final. rewrite Hf.
    apply conteo_lineas_con.
Qed.

(** C4. When the secondary thread is pointed at a file that cannot be read,
    nothing reaches the main thread as an exception: the secondary thread
    prints the error, sets [hilo_terminado] and never assigns
    [contador_errores], which stays 0; the main thread can only be stopped by
    the end of its own input, every report it prints says 0, the program never
    comes to a halt before both threads are done, and no run goes on for
    ever. *)
Theorem C4_fallo_del_hilo (teclado : list string)
    (fs : string -> option string) (s : estado) :
  fs (nombre_archivo cfg) = None ->
  pasos E cfg (lanzado teclado fs) s ->
  contador_errores s = 0 /\
  escrituras V_contador (traza s) = 0 /\
  (avisado (pc_hilo s) = true -> In Msg_error_hilo (salida s)) /\
  (pc_hilo s = H_muerto -> hilo_terminado s = true) /\
  (forall m, pc_main s = M_abortado m -> m = Fin_de_entrada /\ entrada s = []) /\
  (forall p n, In (Msg_resultado_final p n) (salida s) -> n = 0) /\
  (pc_main s = M_fin ->
   In (Msg_resultado_final (palabra_clave cfg) 0) (salida s)) /\
  ((exists h s', paso E cfg h s = Some s') \/
   (main_parado (pc_main s) = true /\ pc_hilo s = H_muerto /\
    hilo_terminado s = true)) /\
  (forall turnos s', ejecutar_estricto E cfg turnos s = Some s' ->
     length turnos <= medida cfg s).
Proof.
  intros Hf Hs.
  pose proof (Inv_lanzado_pasos _ _ _ _ _ Hs) as I.
  destruct (lanzado_ficheros _ _ _ _ _ Hs) as [Hfs _].
  pose proof (lanzado_sigue _ _ _ Hs) as Hl.
  assert (Hleg : legible cfg s = false)
    by (unfold legible; now rewrite Hfs, Hf).
  assert (Hcf : conteo_final cfg s = 0)
    by (unfold conteo_final; now rewrite Hfs, Hf).
  repeat split.
  - rewrite (inv_contador _ _ _ I), Hcf. now destruct (publicado (pc_hilo s)).
  - rewrite (inv_escrituras_contador _ _ _ I), Hleg.
    now rewrite andb_false_r.
  - intros Ha. pose proof (inv_aviso_hilo _ _ _ I Ha) as Hin.
    now rewrite Hleg in Hin.
  - intros Hm. now rewrite (inv_terminado _ _ _ I), Hm.
  - pose proof (inv_main _ _ _ I) as Hmain.
    pose proof (inv_lanzamiento _ _ _ I) as Hlan.
    unfold main_coherente in Hmain. rewrite H in Hmain, Hlan.
    destruct m; simpl in *; try tauto;
      exfalso; apply Hl; now apply Hlan.
  - pose proof (inv_main _ _ _ I) as Hmain.
    pose proof (inv_lanzamiento _ _ _ I) as Hlan.
    unfold main_coherente in Hmain. rewrite H in Hmain, Hlan.
    destruct m; simpl in *; try tauto;
      exfalso; apply Hl; now apply Hlan.
  - intros p n Hin.
    pose proof (inv_salida _ _ _ I) as Hsal.
    rewrite Forall_forall in Hsal. apply Hsal in Hin. simpl in Hin.
    rewrite Hcf in Hin. tauto.
  - intros Hpc. rewrite <- Hcf. apply (inv_informe _ _ _ I).
    now rewrite Hpc.
  - destruct (progreso _ _ _ I) as [Hp | [Hpar [Hm | Hn]]].
    + now left.
    + right. repeat split; try assumption.
      now rewrite (inv_terminado _ _ _ I), Hm.
    + contradiction.
  - intros turnos s' Hrun.
    pose proof (carrera_acotada _ _ _ _ _ I Hrun). lia.
Qed.

(** C5. Once [hilo_terminado] is true the shared count has its final value
    (the assignment of line 107, when there was one, came before the flag), no
    later step assigns it or resets the flag, so every later reading gives the
    same pair; and every status line that saw the flag true printed the final
    count. *)
Theorem C5_congelado (s : estado) :
  alcanzable E cfg s ->
  hilo_terminado s = true ->
  contador_errores s = conteo_final cfg s /\
  (forall texto, ficheros s (nombre_archivo cfg) = Some texto ->
     contador_errores s = lineas_con Subcadena_dec (palabra_clave cfg) texto /\
     escrituras V_contador (traza s) = 1) /\
  (forall s', pasos E cfg s s' ->
     contador_errores s' = contador_errores s /\ hilo_terminado s' = true /\
     escrituras V_contador (traza s') = escrituras V_contador (traza s)) /\
  (forall n, In (Msg_conteo_finalizado n) (salida s) ->
     n = contador_errores s).
Proof.
  intros Hs Ht. apply Inv_alcanzable in Hs as I.
  assert (Hm : pc_hilo s = H_muerto).
  { rewrite (inv_terminado _ _ _ I) in Ht.
    destruct (pc_hilo s); try discriminate. reflexivity. }
  assert (Hc : contador_errores s = conteo_final cfg s)
    by now rewrite (inv_contador _ _ _ I), Hm.
  split; [assumption|]. split; [|split].
  - intros texto Hf. split.
    + rewrite Hc. unfold conteo_final. rewrite Hf. apply conteo_lineas_con.
    + rewrite (inv_escrituras_contador _ _ _ I), Hm.
      unfold legible. now rewrite Hf.
  - intros s' Hs'.
    destruct (congelado_pasos _ _ _ _ I Ht Hs') as (H1 & H2 & H3 & _).
    auto.
  - intros n Hin.
    pose proof (inv_salida _ _ _ I) as Hsal.
    rewrite Forall_forall in Hsal. apply Hsal in Hin. simpl in Hin.
    congruence.
Qed.

(** C6. [hilo_terminado] starts false, is true exactly when the secondary
    thread has ended (after a scan or after a failure alike), is assigned once,
    by the last step of the secondary thread, and no step ever makes it false
    again. *)
Theorem C6_bandera_monotona (s : estado) :
  alcanzable E cfg s ->
  (forall s0, arranque s0 -> hilo_terminado s0 = false) /\
  (hilo_terminado s = true <-> pc_hilo s = H_muerto) /\
  escrituras V_terminado (traza s) = (if hilo_terminado s then 1 else 0) /\
  (pc_hilo s = H_finally ->
   exists s', paso E cfg Secundario s = Some s' /\ hilo_terminado s' = true /\
     pc_hilo s' = H_muerto) /\
  (forall h s', paso E cfg h s = Some s' -> hilo_terminado s = false ->
     hilo_terminado s' = true -> h = Secundario /\ pc_hilo s = H_finally) /\
  (forall s', pasos E cfg s s' -> hilo_terminado s = true ->
     hilo_terminado s' = true).
Proof.
  intros Hs. apply Inv_alcanzable in Hs as I.
  split; [|split; [|split; [|split; [|split]]]].
  - intros s0 [teclado fs | teclado fs]; reflexivity.
  - rewrite (inv_terminado _ _ _ I).
    destruct (pc_hilo s); simpl; split; congruence.
  - apply (inv_escrituras_terminado _ _ _ I).
  - intros Hpc. unfold paso, contar_errores_en_fichero. rewrite Hpc.
    eexists; repeat split; reflexivity.
  - intros h s' H Hf Ht.
    destruct s; destruct h; un_paso H s'; simpl in *;
      try congruence; auto.
  - intros s' H Ht.
    destruct (congelado_pasos _ _ _ _ I Ht H) as (_ & H2 & _).
    assumption.
Qed.


Lemma despachar_no_valida (opcion : string) :
  ~ In opcion ["1"; "2"; "3"; "4"; "5"] -> despachar opcion = M_no_valida.
Proof.
  intros Hno. unfold despachar.
  repeat match goal with
         | |- context [String.eqb opcion ?x] =>
             destruct (String.eqb_spec opcion x) as [->|_];
             [exfalso; apply Hno; simpl; tauto|]
         end.
  reflexivity.
Qed.

(** C8. When the text typed at the menu, stripped, is none of "1" to "5", the
    three steps the main thread makes (menu and dispatch, the notice of line
    254, the pause) print the menu and the notice, consume that line, and come
    back to the menu: the shared count, the flag, the semaphore, the secondary
    thread, the files and the access history are as before. *)
Theorem C8_opcion_no_valida (s : estado) (l : string) (resto : list string) :
  pc_main s = M_menu ->
  entrada s = l :: resto ->
  ~ In (strip E l) ["1"; "2"; "3"; "4"; "5"] ->
  exists s3,
    ejecutar_estricto E cfg [Principal; Principal; Principal] s = Some s3 /\
    pc_main s3 = M_menu /\
    entrada s3 = resto /\
    salida s3 = Msg_no_valida :: Msg_menu :: salida s /\
    contador_errores s3 = contador_errores s /\
    hilo_terminado s3 = hilo_terminado s /\
    semaforo s3 = semaforo s /\
    pc_hilo s3 = pc_hilo s /\
    ficheros s3 = ficheros s /\
    permisos_principal s3 = permisos_principal s /\
    permisos_hilo s3 = permisos_hilo s /\
    traza s3 = traza s.
Proof.
  intros Hpc He Hno. apply despachar_no_valida in Hno.
  destruct s; simpl in *; subst.
  unfold main, input; simpl. rewrite Hno. simpl.
  eexists; repeat split; reflexivity.
Qed.

(** C9. The permits of the semaphore are always accounted for: its value
    plus the permits held is 1, a thread holds a permit exactly between an
    [acquire] and the [release] of the [finally] that follows it, so a thread
    that has ended or stopped holds none and at the end of the program the
    semaphore is back at 1.  The [release] runs whichever way the protected
    block ended: from each of the three [finally] points, after a normal end
    or after an exception, the next step of the thread gives the permit
    back. *)
Theorem C9_semaforo_devuelto (s : estado) :
  alcanzable E cfg s ->
  semaforo s + permisos_principal s + permisos_hilo s = 1 /\
  permisos_principal s = (if en_seccion_main (pc_main s) then 1 else 0) /\
  permisos_hilo s = (if en_seccion_hilo (pc_hilo s) then 1 else 0) /\
  (main_parado (pc_main s) = true -> permisos_principal s = 0) /\
  (pc_hilo s = H_muerto -> permisos_hilo s = 0) /\
  (final s -> semaforo s = 1) /\
  (forall t r,
     pc_main t = M_estado_release r \/ pc_main t = M_final_release r ->
     exists t', paso E cfg Principal t = Some t' /\
       semaforo t' = semaforo t + 1 /\
       permisos_principal t' = permisos_principal t - 1 /\
       en_seccion_main (pc_main t') = false) /\
  (forall t r n,
     pc_hilo t = H_release r n ->
     exists t', paso E cfg Secundario t = Some t' /\
       semaforo t' = semaforo t + 1 /\
       permisos_hilo t' = permisos_hilo t - 1 /\
       en_seccion_hilo (pc_hilo t') = false).
Proof.
  intros Hs. apply Inv_alcanzable in Hs as I.
  pose proof (inv_semaforo _ _ _ I) as H1.
  pose proof (inv_permisos_main _ _ _ I) as H2.
  pose proof (inv_permisos_hilo _ _ _ I) as H3.
  split; [|split; [|split; [|split; [|split; [|split; [|split]]]]]]; auto.
  - intros Hp. rewrite H2. destruct (pc_main s); try discriminate; reflexivity.
  - intros Hm. now rewrite H3, Hm.
  - intros [Hp [Hm | Hn]]; rewrite H2, H3 in H1;
      destruct (pc_main s); try discriminate; simpl in H1;
      rewrite ?Hm, ?Hn in H1; simpl in H1; lia.
  - intros t r [Hpc | Hpc]; unfold paso, main; rewrite Hpc;
      destruct r; eexists; repeat split; reflexivity.
  - intros t r n Hpc. unfold paso, contar_errores_en_fichero. rewrite Hpc.
    destruct r; eexists; repeat split; reflexivity.
Qed.


End Propiedades.

(* ------------------------------------------------------------------------- *)
(** ** The properties on concrete runs *)
(* ------------------------------------------------------------------------- *)

Lemma alcanzable_lanzado E cfg turnos teclado fs :
  alcanzable E cfg (ejecutar E cfg turnos (lanzado teclado fs)).
Proof. apply alcanzable_ejecutar, alcanzable_arranque. constructor. Qed.

Lemma alcanzable_inicial E cfg turnos teclado fs :
  alcanzable E cfg (ejecutar E cfg turnos (inicial teclado fs)).
Proof. apply alcanzable_ejecutar, alcanzable_arranque. constructor. Qed.

(** The scenario of the specification: ten lines, three with "ERROR". *)
Lemma C1_testigo :
  solo "log.txt" diez_lineas (nombre_archivo config_ejemplo) = Some diez_lineas /\
  contador_errores
    (ejecutar entorno_ejemplo config_ejemplo (repeat Secundario 20)
       (lanzado ["3"; "5"] (solo "log.txt" diez_lineas))) = 3.
Proof.
  split; [reflexivity|].
  destruct (C1_conteo_del_fichero entorno_ejemplo config_ejemplo ["3"; "5"]
              (solo "log.txt" diez_lineas) diez_lineas eq_refl)
    as (Hfin & Hcuenta & _ & _).
  change 20 with (length (readlines diez_lineas) + 10).
  destruct (Hcuenta _ (ejecutar_pasos entorno_ejemplo config_ejemplo
                         (repeat Secundario
                            (length (readlines diez_lineas) + 10)) _))
    as (_ & _ & Hc).
  rewrite (Hc Hfin). vm_compute. reflexivity.
Defined.

(** C2 as first stated does not hold: on this run the flag is written by the
    secondary thread and read by the main thread with no permit held, so not
    every access to the two shared variables is made inside the semaphore. *)
Lemma C2_contraejemplo :
  alcanzable entorno_ejemplo config_ejemplo estado_saliendo /\
  In {| a_hilo := Secundario; a_var := V_terminado; a_modo := Escritura;
        a_con_semaforo := false |} (traza estado_saliendo) /\
  In {| a_hilo := Principal; a_var := V_terminado; a_modo := Lectura;
        a_con_semaforo := false |} (traza estado_saliendo) /\
  ~ Forall siempre_con_semaforo (traza estado_saliendo).
Proof.
  split; [apply alcanzable_lanzado|].
  split; [vm_compute; tauto|].
  split; [vm_compute; tauto|].
  intros H. rewrite Forall_forall in H.
  specialize (H {| a_hilo := Principal; a_var := V_terminado;
                   a_modo := Lectura; a_con_semaforo := false |}).
  unfold siempre_con_semaforo in H. cbn [a_con_semaforo] in H.
  assert (false = true); [|discriminate].
  apply H. vm_compute. tauto.
Qed.

Lemma C2_testigo :
  alcanzable entorno_ejemplo config_ejemplo estado_salida_temprana /\
  Forall acceso_protegido (traza estado_salida_temprana).
Proof.
  split; [apply alcanzable_lanzado|].
  apply (C2_contador_bajo_semaforo entorno_ejemplo config_ejemplo
           estado_salida_temprana (alcanzable_lanzado _ _ _ _ _)).
Defined.

Lemma C3_testigo :
  alcanzable entorno_ejemplo config_ejemplo estado_salida_temprana /\
  In (Msg_resultado_final "ERROR" 3) (salida estado_salida_temprana) /\
  (forall p n, In (Msg_resultado_final p n) (salida estado_salida_temprana) ->
     n = 3).
Proof.
  split; [apply alcanzable_lanzado|].
  split; [vm_compute; tauto|].
  intros p n Hin.
  destruct (C3_informe_tras_el_hilo entorno_ejemplo config_ejemplo
              estado_salida_temprana (alcanzable_lanzado _ _ _ _ _))
    as (_ & _ & _ & _ & Hinf & _).
  rewrite (Hinf p n Hin). vm_compute. reflexivity.
Defined.

Lemma C4_testigo :
  sin_ficheros (nombre_archivo config_ejemplo) = None /\
  pasos entorno_ejemplo config_ejemplo (lanzado [" 5 "] sin_ficheros)
    estado_sin_fichero /\
  pc_main estado_sin_fichero = M_fin /\
  contador_errores estado_sin_fichero = 0 /\
  hilo_terminado estado_sin_fichero = true /\
  In Msg_error_hilo (salida estado_sin_fichero) /\
  In (Msg_resultado_final "ERROR" 0) (salida estado_sin_fichero).
Proof.
  split; [reflexivity|]. split; [apply ejecutar_pasos|].
  destruct (C4_fallo_del_hilo entorno_ejemplo config_ejemplo [" 5 "]
              sin_ficheros estado_sin_fichero eq_refl (ejecutar_pasos _ _ _ _))
    as (Hc & _ & Hav & Hfl & _ & _ & Hinf & _).
  split; [vm_compute; reflexivity|].
  split; [exact Hc|].
  split; [apply Hfl; vm_compute; reflexivity|].
  split; [apply Hav; vm_compute; reflexivity|].
  apply Hinf. vm_compute. reflexivity.
Defined.

Lemma C5_testigo :
  alcanzable entorno_ejemplo config_ejemplo estado_saliendo /\
  hilo_terminado estado_saliendo = true /\
  contador_errores estado_saliendo = 3 /\
  contador_errores estado_salida_temprana = 3.
Proof.
  split; [apply alcanzable_lanzado|]. split; [vm_compute; reflexivity|].
  destruct (C5_congelado entorno_ejemplo config_ejemplo estado_saliendo
              (alcanzable_lanzado _ _ _ _ _))
    as (Hc & _ & _ & _); [vm_compute; reflexivity|].
  split; [rewrite Hc; vm_compute; reflexivity|].
  vm_compute. reflexivity.
Defined.

Lemma C6_testigo :
  alcanzable entorno_ejemplo config_ejemplo estado_main /\
  hilo_terminado estado_main = true /\
  escrituras V_terminado (traza estado_main) = 1.
Proof.
  split; [apply alcanzable_inicial|].
  destruct (C6_bandera_monotona entorno_ejemplo config_ejemplo estado_main
              (alcanzable_inicial _ _ _ _ _))
    as (_ & Hiff & Hesc & _).
  assert (Ht : hilo_terminado estado_main = true)
    by (apply Hiff; vm_compute; reflexivity).
  split; [exact Ht|]. now rewrite Hesc, Ht.
Defined.



Lemma C8_testigo :
  pc_main estado_en_menu = M_menu /\
  entrada estado_en_menu = [" 9"; "5"] /\
  ~ In (strip entorno_ejemplo " 9") ["1"; "2"; "3"; "4"; "5"] /\
  exists s3,
    ejecutar_estricto entorno_ejemplo config_ejemplo
      [Principal; Principal; Principal] estado_en_menu = Some s3 /\
    pc_main s3 = M_menu /\ entrada s3 = ["5"] /\
    contador_errores s3 = contador_errores estado_en_menu /\
    hilo_terminado s3 = hilo_terminado estado_en_menu /\
    pc_hilo s3 = pc_hilo estado_en_menu.
Proof.
  assert (Hno : ~ In (strip entorno_ejemplo " 9") ["1"; "2"; "3"; "4"; "5"]).
  { vm_compute. intros [H|[H|[H|[H|[H|[]]]]]]; discriminate H. }
  assert (Hpc : pc_main estado_en_menu = M_menu) by (vm_compute; reflexivity).
  assert (He : entrada estado_en_menu = [" 9"; "5"])
    by (vm_compute; reflexivity).
  split; [exact Hpc|]. split; [exact He|]. split; [exact Hno|].
  destruct (C8_opcion_no_valida entorno_ejemplo config_ejemplo estado_en_menu
              " 9" ["5"] Hpc He Hno)
    as (s3 & H1 & H2 & H3 & _ & H5 & H6 & _ & H8 & _).
  exists s3. repeat split; assumption.
Defined.

Lemma C9_testigo :
  alcanzable entorno_ejemplo config_ejemplo estado_main /\
  semaforo estado_main = 1 /\
  permisos_principal estado_main = 0 /\
  permisos_hilo estado_main = 0.
Proof.
  split; [apply alcanzable_inicial|].
  destruct (C9_semaforo_devuelto entorno_ejemplo config_ejemplo estado_main
              (alcanzable_inicial _ _ _ _ _))
    as (_ & _ & _ & Hp & Hh & Hf & _).
  split; [|split].
  - apply Hf. split; [vm_compute; reflexivity | left; vm_compute; reflexivity].
  - apply Hp. vm_compute. reflexivity.
  - apply Hh. vm_compute. reflexivity.
Defined.


(** *** End-to-end scenarios *)

Example consola_diez_lineas :
  rev (salida estado_salida_temprana) =
  [ Msg_menu; Msg_saliendo; Msg_esperando; Msg_hilo_iniciado "ERROR";
    Msg_hilo_terminado 3 "ERROR"; Msg_cabecera_final;
    Msg_resultado_final "ERROR" 3; Msg_despedida ].
Proof. vm_compute. reflexivity. Qed.

Example informe_fichero_vacio :
  In (Msg_resultado_final "ERROR" 0)
    (salida (ejecutar entorno_ejemplo config_ejemplo turnos_salida_temprana
               (lanzado ["5"] (solo "log.txt" "")))).
Proof. vm_compute. tauto. Qed.

Example informe_palabra_ausente :
  In (Msg_resultado_final "FATAL" 0)
    (salida (ejecutar entorno_ejemplo
               {| nombre_archivo := "log.txt"; palabra_clave := "FATAL";
                  num_lineas := 4 |}
               turnos_salida_temprana
               (lanzado ["5"] (solo "log.txt" diez_lineas)))).
Proof. vm_compute. tauto. Qed.

Example consola_main :
  rev (salida estado_main) =
  [ Msg_titulo; Msg_generando 4; Msg_generado "log.txt";
    Msg_hilo_iniciado "ERROR"; Msg_menu; Msg_procesando 0; Msg_menu;
    Msg_no_valida; Msg_hilo_terminado 1 "ERROR"; Msg_menu;
    Msg_conteo_finalizado 1; Msg_menu; Msg_saliendo; Msg_cabecera_final;
    Msg_resultado_final "ERROR" 1; Msg_despedida ].
Proof. vm_compute. reflexivity. Qed.

(** While the main thread waits in [join] it cannot move. *)
Example join_espera :
  let s := ejecutar entorno_ejemplo config_ejemplo
             [Principal; Principal; Secundario]
             (lanzado ["5"] (solo "log.txt" diez_lineas)) in
  pc_main s = M_join /\ paso entorno_ejemplo config_ejemplo Principal s = None.
Proof. vm_compute. split; reflexivity. Qed.

(* ------------------------------------------------------------------------- *)
(** ** Further properties: reading and generating the file *)
(* ------------------------------------------------------------------------- *)

Section MasTexto.

Lemma escribir_todo_cortar (actual s : string) :
  escribir_todo (cortar actual s) = actual ++ s.
Proof.
  revert actual; induction s as [|c s IH]; intros actual; simpl.
  - destruct actual; simpl; [reflexivity|].
    now rewrite !append_vacia_der.
  - destruct (Ascii.eqb_spec c LF) as [->|Hc]; simpl.
    + rewrite IH, append_asoc. reflexivity.
    + rewrite IH, append_asoc. reflexivity.
Qed.

(** X1. [readlines] loses nothing: the lines it returns, put one after the
    other, are the text of the file as text mode delivers it (CR LF and lone
    CR turned into LF). *)
Theorem X1_readlines_no_pierde (texto : string) :
  escribir_todo (readlines texto) = saltos_universales texto.
Proof. unfold readlines. apply escribir_todo_cortar. Qed.

(** X2. Reading back the file that [generar_fichero_grande] writes gives the
    [n] lines written, in the order written: line [i] is the bracketed number
    [i+1], the message of the draw, and the newline. *)
Theorem X2_leer_lo_generado (E : Entorno) (k0 n : nat) :
  readlines (texto_generado E k0 n) =
  map (fun i => "[" ++ decimal (i + 1) ++ "] "
                  ++ choice E (k0 + i) mensajes_posibles ++ String LF "")
      (seq 0 n) /\
  length (readlines (texto_generado E k0 n)) = n.
Proof.
  split; [apply readlines_texto_generado | apply lineas_texto_generado].
Qed.

Lemma contiene_salta_prefijo (c : ascii) (k p r : string) :
  sin_caracter c p = true ->
  contiene (String c k) (p ++ r) = contiene (String c k) r.
Proof.
  induction p as [|x p IH]; simpl; intros H; [reflexivity|].
  apply andb_true_iff in H as [Hx Hp]. apply negb_true_iff in Hx.
  destruct (ascii_dec c x) as [->|_].
  - now rewrite Ascii.eqb_refl in Hx.
  - simpl. now apply IH.
Qed.

Lemma sin_caracter_append (c : ascii) (a b : string) :
  sin_caracter c (a ++ b) = sin_caracter c a && sin_caracter c b.
Proof.
  induction a as [|x a IH]; simpl; [reflexivity|].
  now rewrite IH, andb_assoc.
Qed.

Lemma sin_E_uint (d : Decimal.uint) :
  sin_caracter "E" (NilEmpty.string_of_uint d) = true.
Proof. induction d; simpl; auto. Qed.

Lemma contiene_ERROR_mensaje (j : nat) :
  j < 10 ->
  contiene "ERROR" (nth j mensajes_posibles "" ++ String LF "") =
  indice_error j.
Proof.
  intros Hj. do 10 (destruct j as [|j]; [reflexivity|]). lia.
Qed.

Lemma contiene_ERROR_linea (E : Entorno) (k0 i : nat) :
  contiene "ERROR" (linea_generada E k0 i) =
  indice_error (aleatorio E (k0 + i) mod 10).
Proof.
  unfold linea_generada, choice.
  change (length mensajes_posibles) with 10.
  assert (Hj : aleatorio E (k0 + i) mod 10 < 10)
    by (apply Nat.mod_upper_bound; discriminate).
  set (j := aleatorio E (k0 + i) mod 10) in *. clearbody j.
  rewrite <- (contiene_ERROR_mensaje j Hj).
  rewrite <- !append_asoc.
  rewrite append_asoc.
  apply contiene_salta_prefijo.
  rewrite !sin_caracter_append. unfold decimal. rewrite sin_E_uint.
  reflexivity.
Qed.

Lemma conteo_ERROR_generado (E : Entorno) (k0 n : nat) :
  conteo "ERROR" (readlines (texto_generado E k0 n)) =
  errores_sorteados E k0 n.
Proof.
  rewrite readlines_texto_generado. unfold conteo, errores_sorteados.
  induction (seq 0 n) as [|i l IH]; [reflexivity|].
  cbn [map filter]. rewrite contiene_ERROR_linea.
  destruct (indice_error (aleatorio E (k0 + i) mod 10));
    cbn [length]; now rewrite IH.
Qed.

(** X3. On a generated file the tally for the keyword "ERROR" is the number
    of draws that picked one of the four messages that start with "ERROR":
    neither the bracketed line number nor the other six messages contain the
    keyword. *)
Theorem X3_errores_del_fichero_generado (E : Entorno) (k0 n : nat) :
  conteo "ERROR" (readlines (texto_generado E k0 n)) =
  errores_sorteados E k0 n /\
  errores_sorteados E k0 n <= n.
Proof.
  split; [apply conteo_ERROR_generado|].
  unfold errores_sorteados.
  etransitivity; [apply filter_length_le|]. now rewrite length_seq.
Qed.

End MasTexto.

(* ------------------------------------------------------------------------- *)
(** ** Further properties: the console *)
(* ------------------------------------------------------------------------- *)

Lemma progreso_coherente_ext (cfg : Config) (s1 s2 : estado) (m : mensaje) :
  ficheros s1 (nombre_archivo cfg) = ficheros s2 (nombre_archivo cfg) ->
  progreso_coherente cfg s1 m -> progreso_coherente cfg s2 m.
Proof.
  intros Hf. destruct m; simpl; unfold lineas_fichero; rewrite ?Hf; auto.
Qed.

(** The test of line 97 fires exactly when the number of lines gone through
    reaches the next multiple of 1000. *)
Lemma toca_progreso_div (i : nat) :
  (i + 1) / 1000 = i / 1000 + (if toca_progreso i then 1 else 0) /\
  (toca_progreso i = true -> (i + 1) mod 1000 = 0).
Proof.
  unfold toca_progreso.
  pose proof (Nat.div_mod_eq i 1000) as Hi.
  pose proof (Nat.mod_upper_bound i 1000 ltac:(discriminate)) as Hr.
  pose proof (Nat.div_mod_eq (i + 1) 1000) as Hi1.
  pose proof (Nat.mod_upper_bound (i + 1) 1000 ltac:(discriminate)) as Hr1.
  set (q := i / 1000) in *. set (r := i mod 1000) in *.
  set (q1 := (i + 1) / 1000) in *. set (r1 := (i + 1) mod 1000) in *.
  clearbody q r q1 r1.
  destruct (Nat.eqb_spec r1 0) as [H0|H0]; split; try lia; auto.
Qed.

Ltac consola_vieja :=
  match goal with
  | H : Forall (progreso_coherente _ _) ?l |- Forall (progreso_coherente _ _) ?l =>
      eapply Forall_impl; [| exact H];
      intros ?; apply progreso_coherente_ext; reflexivity
  end.

Section MasConsola.

Variable E : Entorno.
Variable cfg : Config.

Arguments toca_progreso : simpl never.
Arguments Nat.modulo : simpl never.
Arguments Nat.div : simpl never.

Lemma Inv_consola_arranque (s : estado) : arranque s -> Inv_consola cfg s.
Proof.
  intros [teclado fs | teclado fs]; constructor; simpl;
    try reflexivity; constructor.
Qed.

Lemma consola_informe h s s' :
  Inv E cfg s -> Inv_consola cfg s -> paso E cfg h s = Some s' ->
  cuenta_mensajes es_informe (salida s') =
  if informe_hecho (pc_main s') then 1 else 0.
Proof.
  intros I [C1 _ _ _] H. unfold cuenta_mensajes in *.
  preparar I H s h s'; rematar.
Qed.

Lemma consola_aviso h s s' :
  Inv E cfg s -> Inv_consola cfg s -> paso E cfg h s = Some s' ->
  cuenta_mensajes es_aviso_final (salida s') =
  if avisado (pc_hilo s') then 1 else 0.
Proof.
  intros I [_ C2 _ _] H. unfold cuenta_mensajes in *.
  preparar I H s h s'; rematar.
Qed.

Lemma consola_progreso h s s' :
  Inv E cfg s -> Inv_consola cfg s -> paso E cfg h s = Some s' ->
  cuenta_mensajes es_progreso (salida s') = procesadas cfg s' / 1000.
Proof.
  intros I [_ _ C3 _] H. unfold cuenta_mensajes, procesadas, lineas_fichero in *.
  preparar I H s h s'; rematar.
  all: try match goal with
           | H : exists _ _, _ |- _ =>
               destruct H as (texto & hechas & ? & Hl & ? & ? & ?)
           end; usar_fichero.
  all: try match goal with
           | H : Some _ = Some _ |- _ => injection H as H; subst
           end.
  all: try discriminate.
  all: try match goal with
           | Hl : readlines _ = (_ ++ [])%list |- _ =>
               rewrite app_nil_r in Hl; rewrite Hl; assumption
           end.
  all: try match goal with
           | Ht : toca_progreso ?i = _ |- _ =>
               destruct (toca_progreso_div i) as [Hd _];
               rewrite Ht in Hd; rewrite Hd; simpl; lia
           end.
Qed.

Lemma consola_coherente h s s' :
  Inv E cfg s -> Inv_consola cfg s -> paso E cfg h s = Some s' ->
  Forall (progreso_coherente cfg s') (salida s').
Proof.
  intros I [_ _ _ C4] H.
  preparar I H s h s'; rematar.
  all: try solve [consola_vieja].
  all: repeat match goal with
              | H : ?v = [] |- _ => is_var v; subst v
              end.
  all: try solve [repeat (apply Forall_cons; [exact Logic.I|]);
                  first [apply Forall_nil | consola_vieja]].
  all: match goal with
       | H : exists _ _, _ |- _ =>
           destruct H as (texto & hechas & Hf & Hl & Hi & Ht & ?)
       end.
  all: apply Forall_cons; [| consola_vieja].
  all: match goal with
       | Hp : toca_progreso ?i = true |- _ =>
           destruct (toca_progreso_div i) as [_ Hm]; specialize (Hm Hp)
       end.
  all: cbn; unfold lineas_fichero; cbn.
  all: try discriminate Hf.
  all: try (injection Hf as Hf; subst texto).
  all: usar_fichero.
  all: rewrite Hl, length_app in Ht; cbn in Ht.
  all: rewrite ?Hl, ?length_app; cbn [length].
  all: repeat split; try assumption; lia.
Qed.

Lemma Inv_consola_paso h s s' :
  Inv E cfg s -> Inv_consola cfg s -> paso E cfg h s = Some s' ->
  Inv_consola cfg s'.
Proof.
  intros I C H. constructor.
  - eapply consola_informe; eassumption.
  - eapply consola_aviso; eassumption.
  - eapply consola_progreso; eassumption.
  - eapply consola_coherente; eassumption.
Qed.

Lemma Inv_consola_alcanzable s :
  alcanzable E cfg s -> Inv_consola cfg s.
Proof.
  intros (s0 & H0 & H).
  induction H as [|h s1 s2 H1 IH Hp].
  - now apply Inv_consola_arranque.
  - eapply Inv_consola_paso; try eassumption.
    eapply Inv_pasos; [|eassumption]. now apply Inv_arranque.
Qed.

Lemma cuenta_cero_no_esta (f : mensaje -> bool) (l : list mensaje) (m : mensaje) :
  cuenta_mensajes f l = 0 -> f m = true -> ~ In m l.
Proof.
  unfold cuenta_mensajes. intros H0 Hf Hin.
  assert (Hin' : In m (filter f l)) by (apply filter_In; auto).
  destruct (filter f l); [contradiction | discriminate].
Qed.


End MasConsola.

(* ------------------------------------------------------------------------- *)
(** ** Further properties: the program as a whole *)
(* ------------------------------------------------------------------------- *)

Lemma conteo_acotado (palabra : string) (lineas : list string) :
  conteo palabra lineas <= length lineas.
Proof. apply filter_length_le. Qed.

Lemma conteo_palabra_vacia (lineas : list string) :
  conteo "" lineas = length lineas.
Proof.
  unfold conteo. induction lineas as [|l ls IH]; [reflexivity|].
  cbn [filter]. rewrite contiene_eq.
  replace (String.prefix "" l) with true by now destruct l.
  cbn. now rewrite IH.
Qed.

Section MasPropiedades.

Variable E : Entorno.
Variable cfg : Config.


(** X5. The count never exceeds the number of lines of the file; inside the
    loop the local tally is at most the number of lines gone through, and
    lines gone through plus lines pending are the lines of the file.  With
    the empty keyword every line counts: the count published is the number of
    lines. *)
Theorem X5_conteo_acotado (teclado : list string)
    (fs : string -> option string) (texto : string) (s : estado) :
  fs (nombre_archivo cfg) = Some texto ->
  pasos E cfg (lanzado teclado fs) s ->
  contador_errores s <= length (readlines texto) /\
  (forall pendientes i total contador_local,
     pc_hilo s = H_bucle pendientes i total contador_local ->
     contador_local <= i /\ i + length pendientes = total /\
     total = length (readlines texto)) /\
  (palabra_clave cfg = "" -> pc_hilo s = H_muerto ->
   contador_errores s = length (readlines texto)).
Proof.
  intros Hf Hs.
  pose proof (Inv_lanzado_pasos _ _ _ _ _ Hs) as I.
  destruct (lanzado_ficheros _ _ _ _ _ Hs) as [Hfs _].
  assert (Hcf : conteo_final cfg s = conteo (palabra_clave cfg) (readlines texto))
    by (unfold conteo_final; now rewrite Hfs, Hf).
  split; [|split].
  - rewrite (inv_contador _ _ _ I), Hcf.
    destruct (publicado (pc_hilo s)); [apply conteo_acotado | lia].
  - intros pendientes i total contador_local Hpc.
    pose proof (inv_hilo _ _ _ I) as Hh. unfold hilo_coherente in Hh.
    rewrite Hpc, Hfs, Hf in Hh.
    destruct Hh as (t & hechas & [= <-] & Hl & -> & -> & ->).
    rewrite Hl, length_app. split; [apply conteo_acotado | lia].
  - intros Hp Hm. rewrite (inv_contador _ _ _ I), Hm, Hcf, Hp. simpl.
    apply conteo_palabra_vacia.
Qed.

Lemma exclusion (s : estado) :
  Inv E cfg s ->
  en_seccion_main (pc_main s) && en_seccion_hilo (pc_hilo s) = false.
Proof.
  intros I.
  pose proof (inv_semaforo _ _ _ I) as H1.
  rewrite (inv_permisos_main _ _ _ I), (inv_permisos_hilo _ _ _ I) in H1.
  destruct (en_seccion_main (pc_main s)), (en_seccion_hilo (pc_hilo s));
    simpl in *; try reflexivity; lia.
Qed.

(** X6. Mutual exclusion: the two threads are never both between an
    [acquire] and its [release]; the semaphore is 0 exactly while one of them
    is, and is never above 1; a thread that arrives at an [acquire] while the
    other is inside cannot move. *)
Theorem X6_exclusion_mutua (s : estado) :
  alcanzable E cfg s ->
  en_seccion_main (pc_main s) && en_seccion_hilo (pc_hilo s) = false /\
  semaforo s <= 1 /\
  (semaforo s = 0 <->
   en_seccion_main (pc_main s) = true \/ en_seccion_hilo (pc_hilo s) = true) /\
  (en_seccion_hilo (pc_hilo s) = true ->
   pc_main s = M_estado_acquire \/ pc_main s = M_final_acquire ->
   paso E cfg Principal s = None) /\
  (en_seccion_main (pc_main s) = true ->
   forall n, pc_hilo s = H_acquire n -> paso E cfg Secundario s = None).
Proof.
  intros Hs. apply Inv_alcanzable in Hs as I.
  pose proof (inv_semaforo _ _ _ I) as H1.
  pose proof (inv_permisos_main _ _ _ I) as H2.
  pose proof (inv_permisos_hilo _ _ _ I) as H3.
  rewrite H2, H3 in H1.
  split; [|split; [|split; [|split]]].
  - destruct (en_seccion_main (pc_main s)), (en_seccion_hilo (pc_hilo s));
      simpl in *; try reflexivity; lia.
  - lia.
  - destruct (en_seccion_main (pc_main s)), (en_seccion_hilo (pc_hilo s));
      simpl in *; split; intros; try lia; auto;
      match goal with H : _ \/ _ |- _ => destruct H; discriminate end.
  - intros Hh Hpc. rewrite Hh in H1.
    assert (H0 : semaforo s = 0) by lia.
    unfold paso, main, acquire.
    destruct Hpc as [Hpc | Hpc]; rewrite Hpc, H0; reflexivity.
  - intros Hm n Hpc. rewrite Hm in H1.
    assert (H0 : semaforo s = 0) by lia.
    unfold paso, contar_errores_en_fichero, acquire.
    rewrite Hpc, H0. reflexivity.
Qed.

(** X7. While the main thread is inside one of its protected blocks (the
    status display or the final report), no step of the secondary thread
    changes [contador_errores]: the value printed is the value the variable
    had throughout the block. *)
Theorem X7_contador_estable_en_seccion (s s' : estado) :
  alcanzable E cfg s ->
  en_seccion_main (pc_main s) = true ->
  paso E cfg Secundario s = Some s' ->
  contador_errores s' = contador_errores s /\
  en_seccion_main (pc_main s') = true /\
  en_seccion_hilo (pc_hilo s') = false.
Proof.
  intros Hs Hm H. apply Inv_alcanzable in Hs as I.
  pose proof (exclusion s I) as Hx.
  rewrite Hm in Hx. simpl in Hx.
  destruct (paso_hilo_marco _ _ _ _ H) as (Hpc & _).
  rewrite Hpc. split; [|split; [assumption|]].
  - destruct s; un_paso H s'; simpl in *; try reflexivity; discriminate.
  - assert (Hz : semaforo s = 0).
    { pose proof (inv_semaforo _ _ _ I) as H1.
      rewrite (inv_permisos_main _ _ _ I), Hm in H1. lia. }
    destruct s; un_paso H s'; simpl in *; try reflexivity; try discriminate.
Qed.

(** X8. The program never gets stuck and never runs for ever: in every
    reachable state some thread can move, unless the main thread has stopped
    and the secondary thread has ended or was never started, and then no
    thread can; a run of [main] makes at most twenty steps per line of input
    plus the number of generated lines plus thirteen. *)
Theorem X8_sin_bloqueo_y_finito (s : estado) :
  alcanzable E cfg s ->
  ((exists h s', paso E cfg h s = Some s') \/ final s) /\
  (final s -> forall h, paso E cfg h s = None) /\
  (forall turnos s', ejecutar_estricto E cfg turnos s = Some s' ->
     length turnos <= medida cfg s) /\
  (forall teclado fs,
     medida cfg (inicial teclado fs) =
     20 * length teclado + num_lineas cfg + 13).
Proof.
  intros Hs. apply Inv_alcanzable in Hs as I.
  split; [|split; [|split]].
  - now apply progreso.
  - intros [Hp Hh] h. destruct h; unfold paso, main, contar_errores_en_fichero.
    + destruct (pc_main s); try discriminate; reflexivity.
    + destruct Hh as [-> | ->]; reflexivity.
  - intros turnos s' Hrun.
    pose proof (carrera_acotada _ _ _ _ _ I Hrun). lia.
  - intros teclado fs. unfold medida, rango_main, medida_hilo. simpl. lia.
Qed.


(** X10. The final report is printed once, by a main thread that reaches it:
    a run in which [main] has ended has exactly one on the console, and a main
    thread stopped by an exception (the end of the input, a file that cannot
    be created) has printed none. *)
Theorem X10_un_solo_informe (s : estado) :
  alcanzable E cfg s ->
  cuenta_mensajes es_informe (salida s) =
    (if informe_hecho (pc_main s) then 1 else 0) /\
  (pc_main s = M_fin -> cuenta_mensajes es_informe (salida s) = 1) /\
  (forall m, pc_main s = M_abortado m ->
     forall p n, ~ In (Msg_resultado_final p n) (salida s)).
Proof.
  intros Hs. pose proof (Inv_consola_alcanzable E cfg s Hs) as C.
  pose proof (invc_informe _ _ C) as H1.
  split; [assumption|]. split.
  - intros Hpc. now rewrite H1, Hpc.
  - intros m Hpc p n. rewrite Hpc in H1.
    now apply (cuenta_cero_no_esta es_informe).
Qed.

(** X11. The secondary thread takes leave once: it prints nothing of lines
    114 and 118 before its [finally], and exactly one of the two after; the
    notice of success when the file could be read, the error otherwise, never
    both. *)
Theorem X11_un_solo_aviso_final (s : estado) :
  alcanzable E cfg s ->
  cuenta_mensajes es_aviso_final (salida s) =
    (if avisado (pc_hilo s) then 1 else 0) /\
  (pc_hilo s = H_muerto -> legible cfg s = true ->
   In (Msg_hilo_terminado (conteo_final cfg s) (palabra_clave cfg)) (salida s) /\
   ~ In Msg_error_hilo (salida s)) /\
  (pc_hilo s = H_muerto -> legible cfg s = false ->
   In Msg_error_hilo (salida s) /\
   forall n p, ~ In (Msg_hilo_terminado n p) (salida s)).
Proof.
  intros Hs. pose proof (Inv_consola_alcanzable E cfg s Hs) as C.
  apply Inv_alcanzable in Hs as I.
  pose proof (inv_salida _ _ _ I) as Hsal. rewrite Forall_forall in Hsal.
  pose proof (inv_aviso_hilo _ _ _ I) as Ha.
  split; [apply (invc_aviso _ _ C)|]. split.
  - intros Hm Hl. rewrite Hm, Hl in Ha. split; [now apply Ha|].
    intros Hin. apply Hsal in Hin. simpl in Hin. congruence.
  - intros Hm Hl. rewrite Hm, Hl in Ha. split; [now apply Ha|].
    intros n p Hin. apply Hsal in Hin. simpl in Hin.
    destruct Hin as (_ & _ & Hin). congruence.
Qed.

Lemma intacto_refl (s : estado) : intacto s s.
Proof. repeat split. Qed.

(** X12. [calcular_suma] (option 4) asks for the second number only when the
    first text is a number: a first text that is not one costs one line of
    input and prints the error; otherwise two lines are consumed and either
    the sum or the error is printed; in both cases the main thread is back at
    the menu with everything the threads share untouched.  If the input ends
    while a number is awaited the main thread stops. *)
Theorem X12_calcular_suma (s : estado) :
  pc_main s = M_suma_1 ->
  (forall a resto, entrada s = a :: resto -> es_float E a = false ->
     exists s2,
       ejecutar_estricto E cfg [Principal; Principal] s = Some s2 /\
       pc_main s2 = M_menu /\ entrada s2 = resto /\
       salida s2 = Msg_suma_error :: salida s /\ intacto s s2) /\
  (forall a b resto, entrada s = a :: b :: resto -> es_float E a = true ->
     exists s3,
       ejecutar_estricto E cfg [Principal; Principal; Principal] s = Some s3 /\
       pc_main s3 = M_menu /\ entrada s3 = resto /\
       salida s3 =
         (if es_float E b then Msg_suma a b else Msg_suma_error) :: salida s /\
       intacto s s3) /\
  (entrada s = [] ->
   exists s1, paso E cfg Principal s = Some s1 /\
     pc_main s1 = M_abortado Fin_de_entrada /\ salida s1 = salida s) /\
  (forall a, entrada s = [a] -> es_float E a = true ->
     exists s2,
       ejecutar_estricto E cfg [Principal; Principal] s = Some s2 /\
       pc_main s2 = M_abortado Fin_de_entrada /\ salida s2 = salida s).
Proof.
  intros Hpc. destruct s; simpl in *; subst.
  split; [|split; [|split]].
  - intros a resto -> Ha. unfold main, input; simpl. rewrite Ha. simpl.
    eexists; repeat split; reflexivity.
  - intros a b resto -> Ha. unfold main, input; simpl. rewrite Ha. simpl.
    destruct (es_float E b); simpl; eexists; repeat split; reflexivity.
  - intros ->. unfold main, input; simpl.
    eexists; repeat split; reflexivity.
  - intros a -> Ha. unfold main, input; simpl. rewrite Ha. simpl.
    eexists; repeat split; reflexivity.
Qed.

(** X13. When the log file cannot be created, [main] stops inside
    [generar_fichero_grande] before the secondary thread exists: the only
    states of the run are the first one and the one after the failed [open],
    in which nothing was scanned, nothing was written to the file store, the
    count is 0, the flag is false and no thread can move. *)
Theorem X13_sin_fichero_no_hay_hilo (teclado : list string)
    (fs : string -> option string) (s : estado) :
  puede_escribir E (nombre_archivo cfg) = false ->
  pasos E cfg (inicial teclado fs) s ->
  (s = inicial teclado fs \/ s = estado_sin_generar cfg teclado fs) /\
  (forall h, paso E cfg h (estado_sin_generar cfg teclado fs) = None).
Proof.
  intros Hw Hs. split; [|intros []; reflexivity].
  induction Hs as [|h s1 s2 _ IH Hp]; [now left|]. right.
  destruct IH as [-> | ->].
  - destruct h; [|discriminate Hp].
    unfold paso, main, generar_fichero_grande in Hp. simpl in Hp.
    rewrite Hw in Hp. now injection Hp as <-.
  - destruct h; discriminate Hp.
Qed.

(** X14. Who touches what.  No step of the main thread changes
    [contador_errores] or [hilo_terminado], and the only thing it does to the
    secondary thread is to start it; no step of the secondary thread consumes
    input or random draws, moves the main thread or changes a file; and the
    files change only inside [generar_fichero_grande]. *)
Theorem X14_quien_toca_que (h : hilo_id) (s s' : estado) :
  paso E cfg h s = Some s' ->
  match h with
  | Principal =>
      contador_errores s' = contador_errores s /\
      hilo_terminado s' = hilo_terminado s /\
      permisos_hilo s' = permisos_hilo s /\
      (pc_hilo s' = pc_hilo s \/
       (pc_main s = M_lanzar /\ pc_hilo s' = H_inicio)) /\
      (ficheros s' = ficheros s \/ pc_main s = M_generar)
  | Secundario =>
      pc_main s' = pc_main s /\ entrada s' = entrada s /\
      sorteos s' = sorteos s /\ ficheros s' = ficheros s /\
      permisos_principal s' = permisos_principal s
  end.
Proof.
  intros H. destruct s; destruct h; un_paso H s'; simpl; auto 10.
Qed.

End MasPropiedades.

(** *** The further properties on concrete runs *)


Lemma X5_testigo :
  solo "log.txt" diez_lineas (nombre_archivo config_ejemplo) = Some diez_lineas /\
  pasos entorno_ejemplo config_ejemplo
    (lanzado ["5"] (solo "log.txt" diez_lineas)) estado_salida_temprana /\
  contador_errores estado_salida_temprana <= 10.
Proof.
  split; [reflexivity|]. split; [apply ejecutar_pasos|].
  destruct (X5_conteo_acotado entorno_ejemplo config_ejemplo ["5"]
              (solo "log.txt" diez_lineas) diez_lineas estado_salida_temprana
              eq_refl (ejecutar_pasos _ _ _ _)) as (Hle & _).
  replace 10 with (length (readlines diez_lineas)) by (vm_compute; reflexivity).
  exact Hle.
Defined.

Lemma X6_testigo :
  alcanzable entorno_ejemplo config_ejemplo estado_main /\
  semaforo estado_main <= 1.
Proof.
  split; [apply alcanzable_inicial|].
  apply (X6_exclusion_mutua entorno_ejemplo config_ejemplo estado_main
           (alcanzable_inicial _ _ _ _ _)).
Defined.

Lemma X7_testigo :
  alcanzable entorno_ejemplo config_ejemplo
    (ejecutar entorno_ejemplo config_ejemplo [Principal; Principal]
       (lanzado ["3"; "5"] (solo "log.txt" diez_lineas))) /\
  contador_errores
    (ejecutar entorno_ejemplo config_ejemplo
       [Principal; Principal; Secundario]
       (lanzado ["3"; "5"] (solo "log.txt" diez_lineas))) = 0.
Proof.
  split; [apply alcanzable_lanzado|].
  set (s := ejecutar entorno_ejemplo config_ejemplo [Principal; Principal]
              (lanzado ["3"; "5"] (solo "log.txt" diez_lineas))).
  set (s' := ejecutar entorno_ejemplo config_ejemplo
               [Principal; Principal; Secundario]
               (lanzado ["3"; "5"] (solo "log.txt" diez_lineas))).
  assert (Hm : en_seccion_main (pc_main s) = true) by (vm_compute; reflexivity).
  assert (Hp : paso entorno_ejemplo config_ejemplo Secundario s = Some s')
    by (vm_compute; reflexivity).
  destruct (X7_contador_estable_en_seccion entorno_ejemplo config_ejemplo s s'
              (alcanzable_lanzado _ _ _ _ _) Hm Hp) as (Hc & _).
  rewrite Hc. vm_compute. reflexivity.
Defined.

Lemma X8_testigo :
  alcanzable entorno_ejemplo config_ejemplo estado_main /\
  final estado_main /\
  paso entorno_ejemplo config_ejemplo Secundario estado_main = None.
Proof.
  split; [apply alcanzable_inicial|].
  assert (Hf : final estado_main).
  { split; [vm_compute; reflexivity | left; vm_compute; reflexivity]. }
  split; [exact Hf|].
  destruct (X8_sin_bloqueo_y_finito entorno_ejemplo config_ejemplo estado_main
              (alcanzable_inicial _ _ _ _ _)) as (_ & Hno & _).
  apply (Hno Hf).
Defined.


Lemma X10_testigo :
  alcanzable entorno_ejemplo config_ejemplo estado_main /\
  cuenta_mensajes es_informe (salida estado_main) = 1.
Proof.
  split; [apply alcanzable_inicial|].
  destruct (X10_un_solo_informe entorno_ejemplo config_ejemplo estado_main
              (alcanzable_inicial _ _ _ _ _)) as (_ & Hfin & _).
  apply Hfin. vm_compute. reflexivity.
Defined.

Lemma X11_testigo :
  alcanzable entorno_ejemplo config_ejemplo estado_sin_fichero /\
  In Msg_error_hilo (salida estado_sin_fichero) /\
  forall n p, ~ In (Msg_hilo_terminado n p) (salida estado_sin_fichero).
Proof.
  split; [apply alcanzable_lanzado|].
  destruct (X11_un_solo_aviso_final entorno_ejemplo config_ejemplo
              estado_sin_fichero (alcanzable_lanzado _ _ _ _ _))
    as (_ & _ & Herr).
  apply Herr; vm_compute; reflexivity.
Defined.

Lemma X12_testigo :
  pc_main (estado_en_suma ["abc"; "5"]) = M_suma_1 /\
  entrada (estado_en_suma ["abc"; "5"]) = ["abc"; "5"] /\
  es_float entorno_ejemplo "abc" = false /\
  exists s2,
    ejecutar_estricto entorno_ejemplo config_ejemplo [Principal; Principal]
      (estado_en_suma ["abc"; "5"]) = Some s2 /\
    pc_main s2 = M_menu /\ entrada s2 = ["5"].
Proof.
  assert (Hpc : pc_main (estado_en_suma ["abc"; "5"]) = M_suma_1)
    by (vm_compute; reflexivity).
  assert (He : entrada (estado_en_suma ["abc"; "5"]) = ["abc"; "5"])
    by (vm_compute; reflexivity).
  assert (Hf : es_float entorno_ejemplo "abc" = false)
    by (vm_compute; reflexivity).
  split; [exact Hpc|]. split; [exact He|]. split; [exact Hf|].
  destruct (X12_calcular_suma entorno_ejemplo config_ejemplo
              (estado_en_suma ["abc"; "5"]) Hpc) as (Hmal & _).
  destruct (Hmal "abc" ["5"] He Hf) as (s2 & H1 & H2 & H3 & _).
  exists s2. auto.
Defined.

Lemma X13_testigo :
  puede_escribir entorno_sin_escritura (nombre_archivo config_ejemplo) = false /\
  pc_hilo (ejecutar entorno_sin_escritura config_ejemplo
             [Principal; Secundario; Principal]
             (inicial ["5"] sin_ficheros)) = H_no_lanzado.
Proof.
  split; [reflexivity|].
  destruct (X13_sin_fichero_no_hay_hilo entorno_sin_escritura config_ejemplo
              ["5"] sin_ficheros _ eq_refl
              (ejecutar_pasos entorno_sin_escritura config_ejemplo
                 [Principal; Secundario; Principal]
                 (inicial ["5"] sin_ficheros))) as ([-> | ->] & _);
    reflexivity.
Defined.

Lemma X14_testigo :
  paso entorno_ejemplo config_ejemplo Secundario (lanzado ["5"] sin_ficheros) =
    Some (ejecutar entorno_ejemplo config_ejemplo [Secundario]
            (lanzado ["5"] sin_ficheros)) /\
  entrada (ejecutar entorno_ejemplo config_ejemplo [Secundario]
             (lanzado ["5"] sin_ficheros)) = ["5"].
Proof.
  assert (Hp : paso entorno_ejemplo config_ejemplo Secundario
                 (lanzado ["5"] sin_ficheros) =
               Some (ejecutar entorno_ejemplo config_ejemplo [Secundario]
                       (lanzado ["5"] sin_ficheros)))
    by (vm_compute; reflexivity).
  split; [exact Hp|].
  destruct (X14_quien_toca_que entorno_ejemplo config_ejemplo Secundario _ _ Hp)
    as (_ & He & _).
  rewrite He. reflexivity.
Defined.

(** A run of [main] over two thousand lines: two progress notices, and the
    count is the number of draws that picked an "ERROR" message. *)
Example dos_mil_lineas :
  pc_hilo estado_dos_mil = H_muerto /\
  contador_errores estado_dos_mil = 800 /\
  errores_sorteados entorno_ejemplo 0 2000 = 800 /\
  filter es_progreso (salida estado_dos_mil) =
  [Msg_progreso 2000 2000; Msg_progreso 1000 2000].
Proof. vm_compute. repeat split; reflexivity. Qed.

(** The program as written asks for 5000 lines: five progress notices. *)
Example avisos_de_main : num_lineas config_main / 1000 = 5.
Proof. reflexivity. Qed.
